(** * AnalyseProgramm: CSV -> dashboard pipeline, embedded in Rocq

    A shallow embedding of [src/AnalyseProgramm.py]: the text helpers the
    program calls on Python strings, the pandas frame it threads through
    [load_csv], the figure records of [build_figures] and the document
    assembled by [write_dashboard].  What pandas and plotly compute inside
    their own code (CSV reading, date parsing, number parsing, chart
    rendering) is an interface, [Externals], that the program is
    parameterised by. *)

From Stdlib Require Import List ZArith NArith String Ascii Bool Lia.
From Stdlib Require Import PrimFloat Uint63 Sorted.
Import ListNotations.

Set Implicit Arguments.
Set Warnings "-inexact-float".

(** ** Python strings

    A Python [str] is a sequence of Unicode code points. *)

Module PyString.

Definition char := N.
Definition pystr := list char.

(** An ASCII literal as a Python string. *)
Definition s2u (s : string) : pystr :=
  map N_of_ascii (list_ascii_of_string s).
Arguments s2u s%_string.

Fixpoint str_eqb (a b : pystr) : bool :=
  match a, b with
  | [], [] => true
  | x :: a', y :: b' => N.eqb x y && str_eqb a' b'
  | _, _ => false
  end.

(** [s.startswith(pat)] *)
Fixpoint startswith (pat s : pystr) : bool :=
  match pat, s with
  | [], _ => true
  | _ :: _, [] => false
  | p :: pat', c :: s' => N.eqb p c && startswith pat' s'
  end.

(** [pat in s]; also [re.search(pat, s)] for a pattern without
    metacharacters, which is how [Series.str.contains] is used. *)
Fixpoint contains (pat s : pystr) : bool :=
  startswith pat s ||
  match s with
  | [] => false
  | _ :: s' => contains pat s'
  end.

(** [s.find(pat)]: lowest index of an occurrence, or -1. *)
Fixpoint find_from (pat s : pystr) (i : Z) : Z :=
  if startswith pat s then i
  else match s with
       | [] => (-1)%Z
       | _ :: s' => find_from pat s' (i + 1)%Z
       end.

Definition find (s pat : pystr) : Z := find_from pat s 0%Z.

(** [s.replace(old, new)]: occurrences are replaced left to right and do
    not overlap; [skip] counts the characters of a matched occurrence that
    are still to be passed over. *)
Fixpoint replace_scan (old new s : pystr) (skip : nat) : pystr :=
  match s with
  | [] => []
  | c :: s' =>
      match skip with
      | S k => replace_scan old new s' k
      | O =>
          if startswith old s
          then new ++ replace_scan old new s' (List.length old - 1)
          else c :: replace_scan old new s' 0
      end
  end.

Definition replace (old new s : pystr) : pystr :=
  match old with
  | [] => new ++ flat_map (fun c => c :: new) s
  | _ :: _ => replace_scan old new s 0
  end.

(** [str.isspace] on one code point (the characters [str.strip()]
    removes). *)
Definition isspace (c : char) : bool :=
  ((9 <=? c) && (c <=? 13) || (28 <=? c) && (c <=? 32) ||
   (c =? 133) || (c =? 160) || (c =? 5760) ||
   (8192 <=? c) && (c <=? 8202) ||
   (c =? 8232) || (c =? 8233) || (c =? 8239) || (c =? 8287) ||
   (c =? 12288))%N.

Fixpoint lstrip (s : pystr) : pystr :=
  match s with
  | [] => []
  | c :: s' => if isspace c then lstrip s' else s
  end.

Definition rstrip (s : pystr) : pystr := rev (lstrip (rev s)).

(** [s.strip()] *)
Definition strip (s : pystr) : pystr := rstrip (lstrip s).

(** [s[a:b]] with Python's treatment of negative and oversized bounds. *)
Definition clamp_index (len i : Z) : Z :=
  if (i <? 0)%Z then Z.max 0 (i + len) else Z.min i len.

Definition slice (s : pystr) (a b : Z) : pystr :=
  let len := Z.of_nat (List.length s) in
  let a' := clamp_index len a in
  let b' := clamp_index len b in
  firstn (Z.to_nat (b' - a')) (skipn (Z.to_nat a') s).

(** [html.escape(s)] with its default [quote=True]. *)
Definition html_escape (s : pystr) : pystr :=
  let s := replace (s2u "&") (s2u "&amp;") s in
  let s := replace (s2u "<") (s2u "&lt;") s in
  let s := replace (s2u ">") (s2u "&gt;") s in
  let s := replace [34%N] (s2u "&quot;") s in
  replace (s2u "'") (s2u "&#x27;") s.

End PyString.
Import PyString.

(** ** pandas values

    A column is a [Series] of one dtype; a frame is an ordered list of
    labelled columns that share one row index.  Row labels are the
    positions [read_csv] numbered the rows with, and boolean indexing keeps
    them.  A numeric column (float64, int64 or bool) is held by its float
    values, NaN standing for a missing entry; a datetime column holds
    nanosecond stamps, [None] for NaT. *)

Module Pandas.

Inductive obj :=
| PyStr (s : pystr)
| PyNaN
| PdNA.

Inductive Series :=
| Numeric (v : list float)
| Object (v : list obj)
| Datetime (v : list (option Z)).

Record DataFrame := mkFrame {
  index : list nat;
  columns : list (pystr * Series)
}.

Definition series_len (s : Series) : nat :=
  match s with
  | Numeric v => List.length v
  | Object v => List.length v
  | Datetime v => List.length v
  end.

Definition column_names (df : DataFrame) : list pystr := map fst (columns df).

(** [name in df.columns] *)
Definition has_column (df : DataFrame) (name : pystr) : bool :=
  existsb (str_eqb name) (column_names df).

(** [df[name]] on a frame whose labels are distinct. *)
Fixpoint lookup (cols : list (pystr * Series)) (name : pystr) : option Series :=
  match cols with
  | [] => None
  | (n, s) :: rest => if str_eqb n name then Some s else lookup rest name
  end.

Definition getitem (df : DataFrame) (name : pystr) : option Series :=
  lookup (columns df) name.

(** [df[name] = s]: an existing column is replaced in place, a new one is
    appended. *)
Fixpoint assign (cols : list (pystr * Series)) (name : pystr) (s : Series)
  : list (pystr * Series) :=
  match cols with
  | [] => [(name, s)]
  | (n, s0) :: rest =>
      if str_eqb n name then (n, s) :: rest else (n, s0) :: assign rest name s
  end.

Definition setitem (df : DataFrame) (name : pystr) (s : Series) : DataFrame :=
  mkFrame (index df) (assign (columns df) name s).

(** Boolean indexing: the entries whose mask bit is set. *)
Fixpoint take_mask (A : Type) (mask : list bool) (l : list A) : list A :=
  match mask, l with
  | b :: mask', x :: l' =>
      if b then x :: take_mask mask' l' else take_mask mask' l'
  | _, _ => []
  end.

Definition series_take (mask : list bool) (s : Series) : Series :=
  match s with
  | Numeric v => Numeric (take_mask mask v)
  | Object v => Object (take_mask mask v)
  | Datetime v => Datetime (take_mask mask v)
  end.

(** [df[mask]] *)
Definition frame_take (mask : list bool) (df : DataFrame) : DataFrame :=
  mkFrame (take_mask mask (index df))
          (map (fun c => (fst c, series_take mask (snd c))) (columns df)).

(** [df[[n1, n2, ...]]] *)
Definition select_columns (df : DataFrame) (names : list pystr) : DataFrame :=
  mkFrame (index df)
          (flat_map (fun n => match getitem df n with
                              | Some s => [(n, s)]
                              | None => []
                              end) names).

Definition isna_obj (o : obj) : bool :=
  match o with
  | PyStr _ => false
  | PyNaN | PdNA => true
  end.

(** [series.isna()] *)
Definition isna (s : Series) : list bool :=
  match s with
  | Numeric v => map PrimFloat.is_nan v
  | Object v => map isna_obj v
  | Datetime v => map (fun t => match t with Some _ => false | None => true end) v
  end.

(** [str(o)] for the entries of an object column. *)
Definition obj_str (o : obj) : pystr :=
  match o with
  | PyStr s => s
  | PyNaN => s2u "nan"
  | PdNA => s2u "<NA>"
  end.

Definition is_numeric_dtype (s : Series) : bool :=
  match s with
  | Numeric _ => true
  | _ => false
  end.

Definition is_object_dtype (s : Series) : bool :=
  match s with
  | Object _ => true
  | _ => false
  end.

End Pandas.
Import Pandas.

(** ** plotly figures

    What [build_figures] puts into one [go.Figure]: a single [go.Scatter]
    trace and the layout settings. *)

Record Figure := mkFigure {
  trace_x : Series;
  trace_y : Series;
  trace_mode : pystr;
  trace_name : pystr;
  line_width : Z;
  marker_size : Z;
  title : pystr;
  xaxis_title : pystr;
  yaxis_title : pystr;
  template : pystr;
  hovermode : pystr
}.

(** ** The libraries the program calls

    [read_csv p enc h] is [pd.read_csv(p, sep=None, engine="python",
    decimal=",", encoding=enc, header=h)]: the frame, or the text of the
    exception raised.  [to_datetime_at s i] is entry [i] of
    [pd.to_datetime(s, dayfirst=True, errors="coerce")]; it sees the whole
    series because pandas settles on a format from it.  [to_numeric_str] is
    [pd.to_numeric(_, errors="coerce")] on one string, NaN when it does not
    parse.  [datetime_str] is [str] of a datetime entry.  [to_html fig js
    div_id] is [pio.to_html(fig, include_plotlyjs="inline" if js else
    False, full_html=False, config=...)]; called without [div_id], plotly
    takes the id of the chart's div from [uuid.uuid4()], which is [uuid4]
    here, threading the state of the random source. *)

Inductive Encoding := utf_8_sig | cp1252.

Class Externals := {
  Path : Type;
  World : Type;
  read_csv : Path -> Encoding -> Z -> pystr + DataFrame;
  to_datetime_at : Series -> nat -> option Z;
  to_numeric_str : pystr -> float;
  datetime_str : option Z -> pystr;
  with_suffix : Path -> pystr -> Path;
  to_html : Figure -> bool -> pystr -> pystr;
  uuid4 : World -> pystr * World
}.

(** The exceptions the program raises itself. *)
Inductive exn := RuntimeError (msg : pystr).

Definition quote : char := 34%N.

Definition msg_unreadable (last_err : pystr) : pystr :=
  s2u "Konnte CSV nicht lesen: " ++ last_err.

Definition msg_no_datum : pystr :=
  s2u "Spalte " ++ [quote] ++ s2u "Datum" ++ [quote] ++ s2u " fehlt in der CSV.".

Definition msg_no_columns : pystr :=
  s2u "Keine Spalten mit Werten > 0,00 gefunden.".

Definition Datum : pystr := s2u "Datum".
Definition marker : pystr := s2u "Definition:".

(** ** The program *)

Section Program.

Context {E : Externals}.

(** [_coerce_numeric]: the values of the float series it returns.  On a
    numeric dtype [pd.to_numeric] hands the values back as they are; any
    other column goes through [astype(str)] and the two replacements. *)
Definition _coerce_numeric (series : Series) : list float :=
  match series with
  | Numeric v => v
  | Object v =>
      map to_numeric_str
          (map (replace (s2u ",") (s2u "."))
               (map (replace (s2u ".") []) (map obj_str v)))
  | Datetime v =>
      map to_numeric_str
          (map (replace (s2u ",") (s2u "."))
               (map (replace (s2u ".") []) (map datetime_str v)))
  end.

(** [_clean_object_columns]: the work done on one object column. *)
Definition replacements : list (pystr * pystr) :=
  [ ([8239%N], s2u " "); ([160%N], s2u " "); ([9%N], s2u " ") ].

Definition mask_na (cleaned : list pystr) (mask : list bool) : list obj :=
  map (fun cm : pystr * bool => if snd cm then PdNA else PyStr (fst cm))
      (combine cleaned mask).

Definition replace_empty (cleaned : list obj) : list obj :=
  map (fun o => match o with
                | PyStr [] => PdNA
                | _ => o
                end) cleaned.

Definition clean_object_series (series : list obj) : list obj :=
  let mask := map isna_obj series in
  let cleaned := map obj_str series in
  let cleaned :=
    fold_left (fun acc (st : pystr * pystr) =>
                 map (replace (fst st) (snd st)) acc)
              replacements cleaned in
  let cleaned := map strip (map (replace [quote] []) cleaned) in
  let cleaned := mask_na cleaned mask in
  replace_empty cleaned.

(** [df.select_dtypes(include="object")], iterated: its labels. *)
Definition object_labels (df : DataFrame) : list pystr :=
  map fst (filter (fun c => is_object_dtype (snd c)) (columns df)).

(** One pass of the loop; [col] is the label of an object column, which
    is what [df[col]] is when labels are distinct. *)
Definition clean_column (df : DataFrame) (col : pystr) : DataFrame :=
  match getitem df col with
  | Some (Object series) => setitem df col (Object (clean_object_series series))
  | _ => df
  end.

Definition _clean_object_columns (df : DataFrame) : DataFrame :=
  fold_left clean_column (object_labels df) df.

(** [col.astype(str).str.contains("Definition:", na=False)] for one
    column.  The text of a number or of a datetime is made of digits,
    signs, [.], [:], [-], blanks and the words nan, inf, NaT; the marker
    never occurs in it. *)
Definition marker_mask (s : Series) : list bool :=
  match s with
  | Object v => map (fun o => contains marker (obj_str o)) v
  | Numeric v => map (fun _ => false) v
  | Datetime v => map (fun _ => false) v
  end.

Definition definition_mask (df : DataFrame) : list (list bool) :=
  map (fun c => marker_mask (snd c)) (columns df).

(** [mask.any()]: one bit per column. *)
Definition any_axis0 (m : list (list bool)) : list bool :=
  map (existsb (fun b : bool => b)) m.

(** [mask.any(axis=1)]: one bit per row. *)
Definition any_axis1 (rows : nat) (m : list (list bool)) : list bool :=
  map (fun i => existsb (fun col => nth i col false) m) (seq 0 rows).

Definition drop_definition_rows (df : DataFrame) : DataFrame :=
  let m := definition_mask df in
  if existsb (fun b : bool => b) (any_axis0 m)
  then frame_take (map negb (any_axis1 (List.length (index df)) m)) df
  else df.

(** [pd.to_datetime(series, dayfirst=True, errors="coerce")] *)
Definition pd_to_datetime (s : Series) : Series :=
  Datetime (map (to_datetime_at s) (seq 0 (series_len s))).

(** [df.dropna(subset=["Datum"])] *)
Definition dropna_datum (df : DataFrame) : DataFrame :=
  match getitem df Datum with
  | Some s => frame_take (map negb (isna s)) df
  | None => df
  end.

(** [(coerced > 0).any()] *)
Definition any_positive (coerced : list float) : bool :=
  existsb (fun v => PrimFloat.ltb 0 v) coerced.

(** The loop of lines 98-105 over [df.columns]. *)
Fixpoint numeric_loop (cols : list pystr) (df : DataFrame)
  (numeric_cols : list pystr) : DataFrame * list pystr :=
  match cols with
  | [] => (df, numeric_cols)
  | col :: rest =>
      if str_eqb col Datum then numeric_loop rest df numeric_cols
      else
        match getitem df col with
        | Some s =>
            let coerced := _coerce_numeric s in
            if any_positive coerced
            then numeric_loop rest (setitem df col (Numeric coerced))
                              (numeric_cols ++ [col])
            else numeric_loop rest df numeric_cols
        | None => numeric_loop rest df numeric_cols
        end
  end.

(** Lines 82-90: labels stripped, text cells cleaned, annotation rows
    removed. *)
Definition normalize (raw : DataFrame) : DataFrame :=
  let df := mkFrame (index raw)
                    (map (fun c => (strip (fst c), snd c)) (columns raw)) in
  let df := _clean_object_columns df in
  drop_definition_rows df.

(** Lines 92-96: the date column is required, parsed, and rows without a
    date are dropped. *)
Definition parse_dates (df : DataFrame) : exn + DataFrame :=
  if negb (has_column df Datum) then inl (RuntimeError msg_no_datum)
  else
    let df := match getitem df Datum with
              | Some s => setitem df Datum (pd_to_datetime s)
              | None => df
              end in
    inr (dropna_datum df).

(** Lines 98-110: coercion and the selection of the columns to chart. *)
Definition select_numeric (df : DataFrame) : exn + DataFrame :=
  let '(df, numeric_cols) := numeric_loop (column_names df) df [] in
  match numeric_cols with
  | [] => inl (RuntimeError msg_no_columns)
  | _ :: _ => inr (select_columns df (Datum :: numeric_cols))
  end.

(** Everything [load_csv] does with the frame once it is read. *)
Definition prepare (raw : DataFrame) : exn + DataFrame :=
  parse_dates (normalize raw).

Definition process (raw : DataFrame) : exn + DataFrame :=
  match prepare raw with
  | inl e => inl e
  | inr df => select_numeric df
  end.

(** Lines 64-80: the encodings are tried in order. *)
Definition header_index (header_row : Z) : Z := Z.max 0 (header_row - 1).

Fixpoint read_loop (csv_path : Path) (header_row : Z) (encs : list Encoding)
  (last_err : option pystr) : option DataFrame * option pystr :=
  match encs with
  | [] => (None, last_err)
  | enc :: rest =>
      match read_csv csv_path enc (header_index header_row) with
      | inr df => (Some df, last_err)
      | inl exc => read_loop csv_path header_row rest (Some exc)
      end
  end.

Definition str_of_err (last_err : option pystr) : pystr :=
  match last_err with
  | Some e => e
  | None => s2u "None"
  end.

Definition read_frame (csv_path : Path) (header_row : Z) : exn + DataFrame :=
  match read_loop csv_path header_row [utf_8_sig; cp1252] None with
  | (Some df, _) => inr df
  | (None, last_err) => inl (RuntimeError (msg_unreadable (str_of_err last_err)))
  end.

Definition load_csv (csv_path : Path) (header_row : Z) : exn + DataFrame :=
  match read_frame csv_path header_row with
  | inl e => inl e
  | inr raw => process raw
  end.

(** [infer_units] *)
Definition infer_units (column_name : pystr) : pystr :=
  let start := find column_name (s2u "(") in
  let end_ := find column_name (s2u ")") in
  if (negb (start =? -1) && negb (end_ =? -1) && (end_ >? start))%Z
  then slice column_name (start + 1) end_
  else [].

(** [units or "Wert"] *)
Definition y_label (col : pystr) : pystr :=
  match infer_units col with
  | [] => s2u "Wert"
  | units => units
  end.

(** [build_figures]; the frame it is given always has the date column. *)
Definition build_figures (df : DataFrame) : list Figure :=
  let time_axis := match getitem df Datum with
                   | Some s => s
                   | None => Datetime []
                   end in
  let value_cols := filter (fun c => negb (str_eqb c Datum)) (column_names df) in
  map (fun col =>
         mkFigure time_axis
                  (match getitem df col with
                   | Some s => s
                   | None => Numeric []
                   end)
                  (s2u "lines+markers") col 2 6
                  col (s2u "Datum") (y_label col)
                  (s2u "plotly_white") (s2u "x unified"))
      value_cols.

(** [write_dashboard]: the cards, one [to_html] call and so one drawn id
    per figure, then the document written to [out_path]. *)
Fixpoint render_cards (figures : list Figure) (idx : nat) (w : World)
  : list pystr * World :=
  match figures with
  | [] => ([], w)
  | fig :: rest =>
      let (div_id, w1) := uuid4 w in
      let html_fragment := to_html fig (Nat.eqb idx 0) div_id in
      let (cards, w2) := render_cards rest (S idx) w1 in
      ((s2u "<section class='card'>" ++ html_fragment ++ s2u "</section>")
         :: cards, w2)
  end.

Definition css : pystr := s2u "
:root { --bg:#F9FAFB; --card:#fff; --text:#111827; --border:#E5E7EB; }
*{box-sizing:border-box}
body{margin:0;padding:24px;font-family:ui-sans-serif,system-ui,-apple-system,Segoe UI,Roboto,Helvetica,Arial;background:var(--bg);color:var(--text)}
h1{margin:0 0 14px 0;font-size:22px}
.grid{display:grid;grid-template-columns:repeat(auto-fit,minmax(360px,1fr));gap:16px}
.card{background:var(--card);border:1px solid var(--border);border-radius:10px;padding:10px;box-shadow:0 1px 2px rgba(0,0,0,.04)}
".

Definition html_doc (title_ : pystr) (cards : list pystr) : pystr :=
  s2u "<!DOCTYPE html>
<html lang='de'>
<head>
  <meta charset='utf-8'/>
  <meta name='viewport' content='width=device-width, initial-scale=1'/>
  <title>" ++ html_escape title_ ++ s2u "</title>
  <style>" ++ css ++ s2u "</style>
</head>
<body>
  <h1>" ++ html_escape title_ ++ s2u "</h1>
  <div class='grid'>
    " ++ List.concat cards ++ s2u "
  </div>
</body>
</html>".

Definition write_dashboard (figures : list Figure) (title_ : pystr) (w : World)
  : pystr * World :=
  let (cards, w') := render_cards figures 0 w in
  (html_doc title_ cards, w').

(** [generate_dashboard]: the path written, the document written to it and
    the state the random source is left in.  Opening the browser leaves
    all three as they are. *)
Definition generate_dashboard (csv_path : Path) (output_path : option Path)
  (title_ : pystr) (header_row : Z) (w : World)
  : exn + (Path * pystr * World) :=
  match load_csv csv_path header_row with
  | inl e => inl e
  | inr df =>
      let figures := build_figures df in
      let out_path := match output_path with
                      | Some p => p
                      | None => with_suffix csv_path (s2u ".dashboard.html")
                      end in
      let (doc, w') := write_dashboard figures title_ w in
      inr (out_path, doc, w')
  end.

End Program.

(** ** A concrete set of libraries

    Small stand-ins for pandas and plotly on the inputs the examples use:
    plain decimal literals of at most 15 digits, dates written
    [dd.mm.yyyy], a file that is either unreadable or already holds its
    frame, and a renderer that writes the div id and the chart title.  Any
    other text is unparsable for them. *)

Module Sample.

Definition digit_val (c : char) : option Z :=
  if ((48 <=? c) && (c <=? 57))%N then Some (Z.of_N c - 48)%Z else None.

Fixpoint digits_val (s : pystr) (acc : Z) : option Z :=
  match s with
  | [] => Some acc
  | c :: s' =>
      match digit_val c with
      | Some d => digits_val s' (10 * acc + d)%Z
      | None => None
      end
  end.

Fixpoint split_at_dot (s : pystr) : pystr * option pystr :=
  match s with
  | [] => ([], None)
  | c :: s' =>
      if (c =? 46)%N then ([], Some s')
      else let (a, b) := split_at_dot s' in (c :: a, b)
  end.

Definition float_of_Z (z : Z) : float := PrimFloat.of_uint63 (Uint63.of_Z z).

Definition parse_unsigned (s : pystr) : float :=
  let (int_part, frac) := split_at_dot s in
  let frac_part := match frac with Some f => f | None => [] end in
  let all := int_part ++ frac_part in
  if (Nat.eqb (List.length all) 0) || (15 <? List.length all)%nat then PrimFloat.nan
  else
    match digits_val all 0 with
    | Some m =>
        PrimFloat.div (float_of_Z m)
                      (float_of_Z (10 ^ Z.of_nat (List.length frac_part)))
    | None => PrimFloat.nan
    end.

Definition parse_decimal (s : pystr) : float :=
  match s with
  | c :: s' =>
      if (c =? 45)%N then PrimFloat.opp (parse_unsigned s')
      else if (c =? 43)%N then parse_unsigned s'
      else parse_unsigned s
  | [] => PrimFloat.nan
  end.

Definition is_leap (y : Z) : bool :=
  ((y mod 4 =? 0) && (negb (y mod 100 =? 0) || (y mod 400 =? 0)))%Z.

Definition days_in_month (y m : Z) : Z :=
  if (m =? 2)%Z then (if is_leap y then 29 else 28)%Z
  else if ((m =? 4) || (m =? 6) || (m =? 9) || (m =? 11))%Z then 30%Z
  else 31%Z.

Definition days_from_civil (y m d : Z) : Z :=
  let y' := (if m <=? 2 then y - 1 else y)%Z in
  let era := (y' / 400)%Z in
  let yoe := (y' - era * 400)%Z in
  let mp := ((m + 9) mod 12)%Z in
  let doy := ((153 * mp + 2) / 5 + d - 1)%Z in
  let doe := (yoe * 365 + yoe / 4 - yoe / 100 + doy)%Z in
  (era * 146097 + doe - 719468)%Z.

(** [dd.mm.yyyy] to nanoseconds since 1970-01-01. *)
Definition parse_date (s : pystr) : option Z :=
  match s with
  | [d1; d2; p1; m1; m2; p2; y1; y2; y3; y4] =>
      if ((p1 =? 46) && (p2 =? 46))%N then
        match digits_val [d1; d2] 0, digits_val [m1; m2] 0,
              digits_val [y1; y2; y3; y4] 0 with
        | Some d, Some m, Some y =>
            if ((1 <=? m) && (m <=? 12) && (1 <=? d) && (d <=? days_in_month y m))%Z
            then Some (days_from_civil y m d * 86400000000000)%Z
            else None
        | _, _, _ => None
        end
      else None
  | _ => None
  end.

Definition date_at (s : Series) (i : nat) : option Z :=
  match s with
  | Object v =>
      match nth_error v i with
      | Some (PyStr text) => parse_date text
      | _ => None
      end
  | Datetime v =>
      match nth_error v i with
      | Some t => t
      | None => None
      end
  | Numeric _ => None
  end.

Definition stamp_str (t : option Z) : pystr :=
  match t with
  | Some _ => s2u "1970-01-01"
  | None => s2u "NaT"
  end.

(** The fragment plotly writes: the library payload with the first chart
    only, then the chart's div and the script that draws into it, both
    naming the div id. *)
Definition render (fig : Figure) (include_plotlyjs : bool) (div_id : pystr) : pystr :=
  s2u "<div>" ++
  (if include_plotlyjs then s2u "<script>/* plotly.js */</script>" else []) ++
  s2u "<div id=" ++ [quote] ++ div_id ++ [quote] ++
  s2u " class=" ++ [quote] ++ s2u "plotly-graph-div" ++ [quote] ++ s2u "></div>" ++
  s2u "<script>Plotly.newPlot(" ++ [quote] ++ div_id ++ [quote] ++ s2u ", " ++
  [quote] ++ title fig ++ [quote] ++ s2u ")</script></div>".

(** The random source as the ids it is going to hand out. *)
Definition next_id (w : list pystr) : pystr * list pystr :=
  match w with
  | id :: rest => (id, rest)
  | [] => ([], [])
  end.

#[export] Instance libs : Externals := {|
  Path := pystr + DataFrame;
  World := list pystr;
  read_csv := fun p _ _ => p;
  to_datetime_at := date_at;
  to_numeric_str := parse_decimal;
  datetime_str := stamp_str;
  with_suffix := fun p _ => p;
  to_html := render;
  uuid4 := next_id
|}.

(** Scenario A of the specification: [Datum] and [Leistung (kW)], three
    dated rows. *)
Definition scenario_a : DataFrame :=
  mkFrame [0; 1; 2]%nat
    [ (s2u "Datum",
       Object [PyStr (s2u "01.02.2024"); PyStr (s2u "02.02.2024");
               PyStr (s2u "03.02.2024")]);
      (s2u "Leistung (kW)",
       Object [PyStr (s2u "1,00"); PyStr (s2u "2,50"); PyStr (s2u "0,00")]) ].

(** Scenario B: the only value column never exceeds zero. *)
Definition scenario_b : DataFrame :=
  mkFrame [0; 1; 2]%nat
    [ (s2u "Datum",
       Object [PyStr (s2u "01.02.2024"); PyStr (s2u "02.02.2024");
               PyStr (s2u "03.02.2024")]);
      (s2u "Status",
       Object [PyStr (s2u "0,00"); PyStr (s2u "-1,00"); PyNaN]) ].

(** No date parses. *)
Definition undated : DataFrame :=
  mkFrame [0; 1]%nat
    [ (s2u "Datum", Object [PyStr (s2u "gestern"); PyStr (s2u "heute")]);
      (s2u "Leistung (kW)", Object [PyStr (s2u "1,00"); PyStr (s2u "2,50")]) ].

(** An annotation row ahead of the data, holding the only positive value
    of [Hinweis]. *)
Definition annotated : DataFrame :=
  mkFrame [0; 1; 2]%nat
    [ (s2u "Datum ",
       Object [PyStr (s2u "01.02.2024"); PyStr (s2u "02.02.2024");
               PyStr (s2u "03.02.2024")]);
      (s2u "Leistung (kW)",
       Object [PyStr (s2u "Definition: Wirkleistung"); PyStr (s2u "1.234,56");
               PyStr (s2u "0,00")]);
      (s2u "Hinweis",
       Object [PyStr (s2u "7,00"); PyNaN; PyStr (s2u "0,00")]) ].

End Sample.

(** ** Vocabulary of the statements *)

(** The cell-level reading of [_clean_object_columns]: blanks unified,
    every double quote deleted, the result trimmed. *)
Definition ws_to_space (c : char) : char :=
  if ((c =? 8239) || (c =? 160) || (c =? 9))%N then 32%N else c.

Definition not_quote (c : char) : bool := negb (c =? quote)%N.

Definition clean_text (s : pystr) : pystr :=
  strip (filter not_quote (map ws_to_space s)).

Definition clean_cell (o : obj) : obj :=
  match o with
  | PyStr s =>
      match clean_text s with
      | [] => PdNA
      | t => PyStr t
      end
  | PyNaN | PdNA => PdNA
  end.

(** The specification's wording of the same step: only the quote
    characters that enclose the text are stripped. *)
Fixpoint drop_quotes (s : pystr) : pystr :=
  match s with
  | [] => []
  | c :: s' => if (c =? quote)%N then drop_quotes s' else s
  end.

Definition strip_enclosing_quotes (s : pystr) : pystr :=
  rev (drop_quotes (rev (drop_quotes s))).

Definition clean_text_enclosing (s : pystr) : pystr :=
  strip (strip_enclosing_quotes (map ws_to_space s)).

Definition lparen : char := 40%N.
Definition rparen : char := 41%N.

(** The locale transform of [_coerce_numeric] on one text. *)
Definition not_dot (c : char) : bool := negb (c =? 46)%N.
Definition comma_to_dot (c : char) : char := if (c =? 44)%N then 46%N else c.

Definition locale_text (s : pystr) : pystr :=
  map comma_to_dot (filter not_dot s).

(** [series.astype(str)] on a column that is not numeric. *)
Definition series_texts {E : Externals} (s : Series) : list pystr :=
  match s with
  | Object v => map obj_str v
  | Datetime v => map datetime_str v
  | Numeric _ => []
  end.

(** Frames as [read_csv] hands them over: labels that stay distinct once
    stripped, a range index, columns as long as the index. *)
Fixpoint distinct (names : list pystr) : bool :=
  match names with
  | [] => true
  | n :: rest => negb (existsb (str_eqb n) rest) && distinct rest
  end.

Definition aligned (df : DataFrame) : bool :=
  forallb (fun c => Nat.eqb (series_len (snd c)) (List.length (index df)))
          (columns df).

Definition range_indexed (df : DataFrame) : bool :=
  forallb (fun p => Nat.eqb (fst p) (snd p))
          (combine (index df) (seq 0 (List.length (index df)))).

Definition distinct_labels (raw : DataFrame) : bool :=
  distinct (map strip (column_names raw)).

Definition well_formed (raw : DataFrame) : bool :=
  distinct_labels raw && range_indexed raw && aligned raw.

(** A column survives when it is not the date column and one of its
    coerced values exceeds zero. *)
Definition survives {E : Externals} (df : DataFrame) (c : pystr) : bool :=
  negb (str_eqb c Datum) &&
  match getitem df c with
  | Some s => any_positive (_coerce_numeric s)
  | None => false
  end.

(** The column-level reading of [_clean_object_columns]. *)
Definition clean_series (s : Series) : Series :=
  match s with
  | Object v => Object (clean_object_series v)
  | _ => s
  end.

Fixpoint update_first (l : pystr) (cols : list (pystr * Series))
  : list (pystr * Series) :=
  match cols with
  | [] => []
  | (n, s) :: rest =>
      if str_eqb n l then (n, clean_series s) :: rest
      else (n, s) :: update_first l rest
  end.

(** Entry [i] of an object column is the text [s]. *)
Definition cell_text (s : Series) (i : nat) : option pystr :=
  match s with
  | Object v =>
      match nth_error v i with
      | Some (PyStr t) => Some t
      | _ => None
      end
  | _ => None
  end.

(** The first ids a random source hands out. *)
Fixpoint draws {E : Externals} (n : nat) (w : World) : list pystr :=
  match n with
  | O => []
  | S k => let (id, w') := uuid4 w in id :: draws k w'
  end.

(** What a run leaves behind: the failure, or the path and the document
    written to it. *)
Definition outcome {E : Externals} (r : exn + (Path * pystr * World))
  : exn + (Path * pystr) :=
  match r with
  | inl e => inl e
  | inr (p, doc, _) => inr (p, doc)
  end.

(** The titles of the charts a run of [load_csv] leads to. *)
Definition chart_columns (r : exn + DataFrame) : list pystr :=
  match r with
  | inl _ => []
  | inr df => map title (build_figures df)
  end.

Definition chart_count {E : Externals} (csv_path : Path) (header_row : Z) : nat :=
  List.length (chart_columns (load_csv csv_path header_row)).

(** ** The drop handler's list parser

    [parse_dnd_list] of the GUI part: the dropped data is split by Tcl's
    [splitlist], or on blanks when that raises; every entry is stripped of
    blanks, then of braces and double quotes, and each non-empty text is
    handed to [Path].  What [pathlib] makes of a text is its own affair
    and stays a parameter. *)

(** [s.strip(chars)] *)
Fixpoint lstrip_chars (chars s : pystr) : pystr :=
  match s with
  | [] => []
  | c :: s' => if existsb (N.eqb c) chars then lstrip_chars chars s' else s
  end.

Definition strip_chars (chars s : pystr) : pystr :=
  rev (lstrip_chars chars (rev (lstrip_chars chars s))).

(** [s.split()]: the maximal runs of characters that are not blanks;
    [cur] is the run being read, last character first. *)
Fixpoint split_ws (s cur : pystr) : list pystr :=
  match s with
  | [] =>
      match cur with
      | [] => []
      | _ :: _ => [rev cur]
      end
  | c :: s' =>
      if isspace c
      then match cur with
           | [] => split_ws s' []
           | _ :: _ => rev cur :: split_ws s' []
           end
      else split_ws s' (c :: cur)
  end.

Definition py_split (s : pystr) : list pystr := split_ws s [].

Definition dnd_trim : pystr := [123%N; 125%N; quote].

Section DragAndDrop.

(** [widget.tk.splitlist(data)], [None] when it raises. *)
Variable splitlist : pystr -> option (list pystr).

(** [Path(entry)] *)
Variable PathOf : Type.
Variable path_of : pystr -> PathOf.

(** [raw_paths]: the entries before they are trimmed. *)
Definition dnd_raw_paths (data : pystr) : list pystr :=
  match splitlist data with
  | Some l => l
  | None => py_split data
  end.

(** One turn of the loop: what is appended to [cleaned]. *)
Definition dnd_entry (entry : pystr) : list PathOf :=
  let entry := strip_chars dnd_trim (strip entry) in
  match entry with
  | [] => []
  | _ :: _ => [path_of entry]
  end.

Definition parse_dnd_list (data : pystr) : list PathOf :=
  flat_map dnd_entry (dnd_raw_paths data).

End DragAndDrop.

(** ** More vocabulary

    What [html.escape] does to one character. *)
Definition escape_char (c : char) : pystr :=
  if (c =? 38)%N then s2u "&amp;"
  else if (c =? 60)%N then s2u "&lt;"
  else if (c =? 62)%N then s2u "&gt;"
  else if (c =? 34)%N then s2u "&quot;"
  else if (c =? 39)%N then s2u "&#x27;"
  else [c].

(** The fixed text of the document around the two places where the
    title is written. *)
Definition doc_head : pystr := s2u "<!DOCTYPE html>
<html lang='de'>
<head>
  <meta charset='utf-8'/>
  <meta name='viewport' content='width=device-width, initial-scale=1'/>
  <title>".

Definition doc_mid : pystr := s2u "</title>
  <style>" ++ css ++ s2u "</style>
</head>
<body>
  <h1>".

Definition doc_tail (cards : list pystr) : pystr := s2u "</h1>
  <div class='grid'>
    " ++ List.concat cards ++ s2u "
  </div>
</body>
</html>".

Definition html_special (c : char) : bool :=
  ((c =? 38) || (c =? 60) || (c =? 62) || (c =? 34) || (c =? 39))%N.

(** The random source after [n] ids were drawn. *)
Fixpoint after_draws {E : Externals} (n : nat) (w : World) : World :=
  match n with
  | O => w
  | S k => after_draws k (snd (uuid4 w))
  end.

(** One card of the document. *)
Definition card {E : Externals} (fig : Figure) (include_plotlyjs : bool)
  (div_id : pystr) : pystr :=
  s2u "<section class='card'>" ++ to_html fig include_plotlyjs div_id
    ++ s2u "</section>".

(** The cell-level reading of a cleaned column. *)
Definition clean_cells (s : Series) : Series :=
  match s with
  | Object v => Object (map clean_cell v)
  | _ => s
  end.

(** The entries of a column at the given row numbers, in that order. *)
Definition series_at (labels : list nat) (s : Series) : Series :=
  match s with
  | Numeric v => Numeric (map (fun i => nth i v PrimFloat.nan) labels)
  | Object v => Object (map (fun i => nth i v PdNA) labels)
  | Datetime v => Datetime (map (fun i => nth i v None) labels)
  end.

(** The document as a function of the figures and of the div ids handed
    to [pio.to_html], card by card. *)
Definition cards_with_ids {E : Externals} (figures : list Figure)
  (ids : list pystr) : list pystr :=
  map (fun p => card (fst p) (Nat.eqb (fst (snd p)) 0) (snd (snd p)))
      (combine figures (combine (seq 0 (List.length figures)) ids)).

Definition document_with_ids {E : Externals} (title_ : pystr)
  (figures : list Figure) (ids : list pystr) : pystr :=
  html_doc title_ (cards_with_ids figures ids).

(** [output_path if output_path else csv_path.with_suffix(...)] *)
Definition output_path_of {E : Externals} (csv_path : Path)
  (output_path : option Path) : Path :=
  match output_path with
  | Some p => p
  | None => with_suffix csv_path (s2u ".dashboard.html")
  end.

(** A file without a date column. *)
Definition frame_without_datum : DataFrame :=
  mkFrame [0; 1]%nat
    [ (s2u "Zeit", Object [PyStr (s2u "01.02.2024"); PyStr (s2u "02.02.2024")]);
      (s2u "Leistung (kW)", Object [PyStr (s2u "1,00"); PyStr (s2u "2,50")]) ].

(** * Properties *)

Example replace_demo :
  replace (s2u "ab") (s2u "X") (s2u "cababbab") = s2u "cXXbX".
Proof. reflexivity. Qed.

Example find_demo : find (s2u "Leistung (kW)") (s2u "(") = 9%Z.
Proof. reflexivity. Qed.

Example strip_demo : strip (s2u "  a b  ") = s2u "a b".
Proof. reflexivity. Qed.

Example slice_demo : slice (s2u "Leistung (kW)") 10 12 = s2u "kW".
Proof. reflexivity. Qed.

Example parse_decimal_demo :
  Sample.parse_decimal (s2u "1234.56") = 1234.56%float /\
  Sample.parse_decimal (s2u "-1.00") = (-1)%float /\
  Sample.parse_decimal (s2u "<NA>") = PrimFloat.nan.
Proof. repeat split; vm_compute; reflexivity. Qed.

Example parse_date_demo :
  Sample.parse_date (s2u "01.01.1970") = Some 0%Z /\
  Sample.parse_date (s2u "02.01.1970") = Some 86400000000000%Z /\
  Sample.parse_date (s2u "30.02.2024") = None.
Proof. repeat split; vm_compute; reflexivity. Qed.

(** ** Strings *)

Lemma str_eqb_eq (a b : pystr) : str_eqb a b = true <-> a = b.
Proof.
  revert b; induction a as [|x a IH]; intros [|y b]; simpl;
    try (split; [discriminate | discriminate]); try tauto.
  rewrite andb_true_iff, N.eqb_eq, IH.
  split; [intros [-> ->]; reflexivity | intros H; inversion H; auto].
Qed.

Lemma str_eqb_refl (a : pystr) : str_eqb a a = true.
Proof. apply str_eqb_eq; reflexivity. Qed.

Lemma str_eqb_neq (a b : pystr) : str_eqb a b = false <-> a <> b.
Proof.
  rewrite <- str_eqb_eq. destruct (str_eqb a b); split; congruence.
Qed.

Lemma str_eqb_sym (a b : pystr) : str_eqb a b = str_eqb b a.
Proof.
  destruct (str_eqb a b) eqn:H1, (str_eqb b a) eqn:H2; auto.
  - apply str_eqb_eq in H1; subst. rewrite str_eqb_refl in H2; discriminate.
  - apply str_eqb_eq in H2; subst. rewrite str_eqb_refl in H1; discriminate.
Qed.

Lemma startswith_spec (p s : pystr) :
  startswith p s = true <-> exists t, s = p ++ t.
Proof.
  revert s; induction p as [|x p IH]; intros s; simpl.
  - split; [exists s; reflexivity | auto].
  - destruct s as [|c s].
    + split; [discriminate | intros [t H]; discriminate].
    + rewrite andb_true_iff, N.eqb_eq, IH. split.
      * intros [-> [t ->]]. exists t; reflexivity.
      * intros [t H]. inversion H; subst. split; [auto | exists t; auto].
Qed.

Lemma contains_spec (p s : pystr) :
  contains p s = true <-> exists a b, s = a ++ p ++ b.
Proof.
  induction s as [|c s IH]; simpl.
  - rewrite orb_false_r, startswith_spec. split.
    + intros [t H]. exists [], t. exact H.
    + intros [a [b H]]. destruct a; simpl in H.
      * exists b; exact H.
      * discriminate.
  - rewrite orb_true_iff, startswith_spec, IH. split.
    + intros [[t H] | [a [b H]]].
      * exists [], t. exact H.
      * exists (c :: a), b. simpl. rewrite H. reflexivity.
    + intros [a [b H]]. destruct a as [|x a]; simpl in H.
      * left. exists b; exact H.
      * right. inversion H; subst. exists a, b. reflexivity.
Qed.

(** Replacing a one-character pattern acts on each character by itself. *)
Lemma replace_char (c : char) (new s : pystr) :
  replace [c] new s = flat_map (fun x => if (x =? c)%N then new else [x]) s.
Proof.
  unfold replace. induction s as [|x s IH]; simpl; auto.
  rewrite andb_true_r, N.eqb_sym.
  destruct (x =? c)%N; simpl; rewrite IH; reflexivity.
Qed.

Lemma replace_char_char (c d : char) (s : pystr) :
  replace [c] [d] s = map (fun x => if (x =? c)%N then d else x) s.
Proof.
  rewrite replace_char. induction s as [|x s IH]; simpl; auto.
  destruct (x =? c)%N; simpl; rewrite IH; reflexivity.
Qed.

Lemma replace_char_nil (c : char) (s : pystr) :
  replace [c] [] s = filter (fun x => negb (x =? c)%N) s.
Proof.
  rewrite replace_char. induction s as [|x s IH]; simpl; auto.
  destruct (x =? c)%N; simpl; rewrite IH; reflexivity.
Qed.

(** [lstrip] removes a run of blanks from the front and nothing else. *)
Lemma lstrip_split (s : pystr) :
  exists a, s = a ++ lstrip s /\ forallb isspace a = true.
Proof.
  induction s as [|c s [a [Hs Ha]]]; simpl.
  - exists []; auto.
  - destruct (isspace c) eqn:Hc.
    + exists (c :: a). simpl. rewrite Hc, Ha. split; [f_equal; exact Hs | auto].
    + exists []; auto.
Qed.

Lemma lstrip_head (s t : pystr) (c : char) :
  lstrip s = c :: t -> isspace c = false.
Proof.
  induction s as [|x s IH]; simpl; [discriminate|].
  destruct (isspace x) eqn:Hx; auto.
  intros H; inversion H; subst; exact Hx.
Qed.

Lemma lstrip_fixed (s : pystr) (c : char) :
  isspace c = false -> lstrip (c :: s) = c :: s.
Proof. intros H; simpl; rewrite H; reflexivity. Qed.

Lemma strip_split (s : pystr) :
  exists a b, s = a ++ strip s ++ b /\
              forallb isspace a = true /\ forallb isspace b = true.
Proof.
  unfold strip, rstrip.
  destruct (lstrip_split s) as [a [Hs Ha]].
  destruct (lstrip_split (rev (lstrip s))) as [b [Hr Hb]].
  exists a, (rev b). repeat split; auto.
  - rewrite Hs at 1. f_equal.
    rewrite <- (rev_involutive (lstrip s)) at 1.
    rewrite Hr at 1. rewrite rev_app_distr. reflexivity.
  - rewrite forallb_forall in *. intros x Hx. apply Hb.
    apply in_rev; exact Hx.
Qed.

Lemma strip_first (s t : pystr) (c : char) :
  strip s = c :: t -> isspace c = false.
Proof.
  unfold strip, rstrip. intros H.
  destruct (lstrip_split (rev (lstrip s))) as [b [Hr Hb]].
  assert (Hl : lstrip s = rev (lstrip (rev (lstrip s))) ++ rev b).
  { rewrite <- rev_app_distr, <- Hr, rev_involutive. reflexivity. }
  rewrite H in Hl. simpl in Hl.
  eapply lstrip_head; exact Hl.
Qed.

Lemma strip_last (s t : pystr) (c : char) :
  strip s = t ++ [c] -> isspace c = false.
Proof.
  unfold strip, rstrip. intros H.
  apply (f_equal (@rev char)) in H.
  rewrite rev_involutive, rev_app_distr in H. simpl in H.
  eapply lstrip_head; exact H.
Qed.

(** A text free of blanks that occurs in [s] still occurs once [s] is
    stripped, filtered by a test it passes, or mapped by a function that
    fixes it. *)
Lemma contains_lstrip (m s : pystr) (c : char) :
  isspace c = false -> contains (c :: m) s = true ->
  contains (c :: m) (lstrip s) = true.
Proof.
  intros Hc H. apply contains_spec in H. destruct H as [a [b ->]].
  induction a as [|x a IH].
  - cbn [app]. rewrite lstrip_fixed by exact Hc.
    apply contains_spec. exists [], b. reflexivity.
  - cbn [app lstrip]. destruct (isspace x); [exact IH|].
    apply contains_spec. exists (x :: a), b. reflexivity.
Qed.

Lemma contains_rev (m s : pystr) :
  contains m s = true -> contains (rev m) (rev s) = true.
Proof.
  intros H. apply contains_spec in H. destruct H as [a [b ->]].
  apply contains_spec. exists (rev b), (rev a).
  rewrite !rev_app_distr, app_assoc. reflexivity.
Qed.

Lemma contains_strip (m s : pystr) :
  m <> [] -> forallb (fun c => negb (isspace c)) m = true ->
  contains m s = true -> contains m (strip s) = true.
Proof.
  intros Hne Hm H. unfold strip, rstrip.
  rewrite forallb_forall in Hm.
  destruct m as [|c m]; [congruence|].
  assert (Hc : isspace c = false).
  { apply negb_true_iff, Hm; left; reflexivity. }
  apply (contains_lstrip _ _ _ Hc) in H.
  apply contains_rev in H.
  destruct (rev (c :: m)) as [|d r] eqn:Hr.
  { apply (f_equal (@List.length char)) in Hr.
    rewrite length_rev in Hr; discriminate. }
  assert (Hd : isspace d = false).
  { apply negb_true_iff, Hm. apply in_rev. rewrite Hr. left; reflexivity. }
  apply (contains_lstrip _ _ _ Hd) in H.
  apply contains_rev in H.
  rewrite <- Hr, rev_involutive in H. exact H.
Qed.

Lemma contains_filter (f : char -> bool) (m s : pystr) :
  forallb f m = true -> contains m s = true -> contains m (filter f s) = true.
Proof.
  intros Hm H. apply contains_spec in H. destruct H as [a [b ->]].
  apply contains_spec. exists (filter f a), (filter f b).
  rewrite !filter_app. do 2 f_equal.
  rewrite forallb_forall in Hm.
  clear - Hm. induction m as [|x m IH]; simpl; auto.
  rewrite (Hm x) by (left; reflexivity).
  rewrite IH; auto. intros y Hy; apply Hm; right; exact Hy.
Qed.

Lemma contains_map (g : char -> char) (m s : pystr) :
  map g m = m -> contains m s = true -> contains m (map g s) = true.
Proof.
  intros Hm H. apply contains_spec in H. destruct H as [a [b ->]].
  apply contains_spec. exists (map g a), (map g b).
  rewrite !map_app, Hm. reflexivity.
Qed.

(** An annotation marker in a raw cell survives cleaning. *)
Lemma marker_survives_cleaning (s : pystr) :
  contains marker s = true -> contains marker (clean_text s) = true.
Proof.
  intros H. unfold clean_text.
  apply contains_strip; [discriminate | reflexivity |].
  apply contains_filter; [reflexivity |].
  apply contains_map; [reflexivity | exact H].
Qed.

(** ** Cleaning of text cells *)

Lemma ws_to_space_chain (x : char) :
  (let x1 := if (x =? 8239)%N then 32%N else x in
   let x2 := if (x1 =? 160)%N then 32%N else x1 in
   if (x2 =? 9)%N then 32%N else x2) = ws_to_space x.
Proof.
  unfold ws_to_space. cbv zeta.
  destruct (x =? 8239)%N eqn:H1; [reflexivity|].
  destruct (x =? 160)%N eqn:H2; [reflexivity|].
  destruct (x =? 9)%N eqn:H3; reflexivity.
Qed.

Lemma clean_text_replace (s : pystr) :
  strip (replace [quote] []
           (replace [9%N] (s2u " ")
              (replace [160%N] (s2u " ")
                 (replace [8239%N] (s2u " ") s)))) = clean_text s.
Proof.
  unfold clean_text. change (s2u " ") with [32%N].
  rewrite replace_char_nil, !replace_char_char, !map_map.
  f_equal. f_equal. apply map_ext. exact ws_to_space_chain.
Qed.

Lemma clean_object_series_cells (series : list obj) :
  clean_object_series series = map clean_cell series.
Proof.
  unfold clean_object_series, replacements, mask_na, replace_empty.
  cbn [fold_left fst snd].
  induction series as [|o series IH]; [reflexivity|].
  cbn [map combine]. rewrite IH. f_equal.
  destruct o as [s| |]; cbn [isna_obj obj_str snd fst clean_cell]; auto.
  rewrite clean_text_replace. destruct (clean_text s); reflexivity.
Qed.

Lemma clean_text_chars (s : pystr) (x : char) :
  In x (clean_text s) ->
  x <> quote /\ x <> 8239%N /\ x <> 160%N /\ x <> 9%N.
Proof.
  unfold clean_text. intros H.
  destruct (strip_split (filter not_quote (map ws_to_space s)))
    as [a [b [Hs _]]].
  assert (Hin : In x (filter not_quote (map ws_to_space s))).
  { rewrite Hs. apply in_or_app; right. apply in_or_app; left. exact H. }
  apply filter_In in Hin. destruct Hin as [Hmap Hq].
  apply in_map_iff in Hmap. destruct Hmap as [y [Hy _]].
  unfold not_quote in Hq. apply negb_true_iff, N.eqb_neq in Hq.
  split; [exact Hq|].
  unfold ws_to_space in Hy.
  destruct (y =? 8239)%N eqn:H1; [subst; repeat split; discriminate|].
  destruct (y =? 160)%N eqn:H2; [subst; repeat split; discriminate|].
  destruct (y =? 9)%N eqn:H3; [subst; repeat split; discriminate|].
  simpl in Hy. subst y.
  apply N.eqb_neq in H1, H2, H3. auto.
Qed.

(** C6, amended: on a text cell, cleaning turns narrow no-break space,
    no-break space and tab into a plain space, deletes every double quote
    wherever it stands, trims blanks at both ends, and an empty result
    becomes the missing value, which the text "0" does not. *)
Theorem clean_cells_delete_every_quote (series : list obj) :
  clean_object_series series = map clean_cell series /\
  (forall s t, clean_cell (PyStr s) = PyStr t ->
     t = strip (filter not_quote (map ws_to_space s)) /\ t <> [] /\
     (forall x, In x t ->
        x <> quote /\ x <> 8239%N /\ x <> 160%N /\ x <> 9%N) /\
     (exists a b,
        filter not_quote (map ws_to_space s) = a ++ t ++ b /\
        forallb isspace a = true /\ forallb isspace b = true) /\
     (forall c r, t = c :: r -> isspace c = false) /\
     (forall r c, t = r ++ [c] -> isspace c = false)) /\
  (forall s, clean_text s = [] -> clean_cell (PyStr s) = PdNA) /\
  clean_cell (PyStr (s2u "0")) = PyStr (s2u "0") /\
  clean_cell PyNaN = PdNA.
Proof.
  split; [apply clean_object_series_cells|].
  split; [|split; [|split; reflexivity]].
  - intros s t H. simpl in H.
    destruct (clean_text s) as [|c r] eqn:Hc; [discriminate|].
    inversion H; subst t; clear H.
    split; [symmetry; exact Hc|]. split; [discriminate|].
    split; [intros x Hx; apply (clean_text_chars s); rewrite Hc; exact Hx|].
    split; [|split].
    + rewrite <- Hc. apply strip_split.
    + intros c' r' Heq. unfold clean_text in Hc.
      exact (@strip_first _ _ _ (eq_trans Hc Heq)).
    + intros r' c' Heq. unfold clean_text in Hc.
      exact (@strip_last _ _ _ (eq_trans Hc Heq)).
  - intros s H. simpl. rewrite H. reflexivity.
Qed.

(** C6 as the specification words it fails on a quote inside a text: the
    program deletes it, stripping the enclosing quotes would keep it. *)
Lemma interior_quote_is_deleted :
  clean_object_series [PyStr (s2u "a" ++ [quote] ++ s2u "b")]
    = [PyStr (s2u "ab")] /\
  clean_text_enclosing (s2u "a" ++ [quote] ++ s2u "b")
    = s2u "a" ++ [quote] ++ s2u "b".
Proof. split; reflexivity. Qed.

(** ** Unit labels *)

Lemma find_from_char_skip (c : char) (pre rest : pystr) (i : Z) :
  ~ In c pre ->
  find_from [c] (pre ++ rest) i
    = find_from [c] rest (i + Z.of_nat (List.length pre)).
Proof.
  revert i; induction pre as [|x pre IH]; intros i Hn.
  - simpl. f_equal. lia.
  - cbn [app find_from startswith].
    assert (Hx : (c =? x)%N = false).
    { apply N.eqb_neq. intros ->. apply Hn; left; reflexivity. }
    rewrite Hx. cbn [andb].
    rewrite IH by (intros H; apply Hn; right; exact H).
    f_equal. cbn [List.length]. lia.
Qed.

Lemma find_from_char_hit (c : char) (rest : pystr) (i : Z) :
  find_from [c] (c :: rest) i = i.
Proof. simpl. rewrite N.eqb_refl. reflexivity. Qed.

Lemma find_from_char_range (c : char) (s : pystr) (i : Z) :
  find_from [c] s i = (-1)%Z \/ (i <= find_from [c] s i)%Z.
Proof.
  revert i; induction s as [|x s IH]; intros i; simpl; auto.
  destruct (c =? x)%N; simpl; [right; lia|].
  destruct (IH (i + 1)%Z); [left; auto | right; lia].
Qed.

Lemma find_from_char_absent (c : char) (s : pystr) (i : Z) :
  ~ In c s -> find_from [c] s i = (-1)%Z.
Proof.
  intros H. rewrite <- (app_nil_r s), find_from_char_skip by exact H.
  reflexivity.
Qed.

Lemma slice_middle (pre u post : pystr) :
  slice (pre ++ u ++ post) (Z.of_nat (List.length pre))
        (Z.of_nat (List.length pre + List.length u)) = u.
Proof.
  unfold slice, clamp_index. rewrite !length_app.
  destruct (Z.ltb_spec (Z.of_nat (List.length pre)) 0); [lia|].
  destruct (Z.ltb_spec (Z.of_nat (List.length pre + List.length u)) 0); [lia|].
  rewrite !Z.min_l by lia.
  replace (Z.to_nat (Z.of_nat (List.length pre + List.length u)
                     - Z.of_nat (List.length pre))) with (List.length u) by lia.
  rewrite Nat2Z.id, skipn_app, skipn_all, Nat.sub_diag. simpl.
  rewrite firstn_app, firstn_all, Nat.sub_diag. simpl.
  apply app_nil_r.
Qed.

Lemma find_lparen (s : pystr) : find s (s2u "(") = find_from [lparen] s 0.
Proof. reflexivity. Qed.

Lemma find_rparen (s : pystr) : find s (s2u ")") = find_from [rparen] s 0.
Proof. reflexivity. Qed.

Lemma infer_units_between (pre u post : pystr) :
  ~ In lparen pre -> ~ In rparen pre -> ~ In rparen u ->
  infer_units (pre ++ [lparen] ++ u ++ [rparen] ++ post) = u.
Proof.
  intros Hl Hr Hu. unfold infer_units.
  rewrite find_lparen, find_rparen.
  rewrite find_from_char_skip by exact Hl.
  cbn [app]. rewrite find_from_char_hit.
  replace (pre ++ lparen :: u ++ rparen :: post)
    with ((pre ++ [lparen] ++ u) ++ rparen :: post)
    by (rewrite <- !app_assoc; reflexivity).
  rewrite find_from_char_skip.
  2:{ intros H. apply in_app_or in H. destruct H as [H|H]; [auto|].
      destruct H as [H|H]; [discriminate | auto]. }
  rewrite find_from_char_hit.
  rewrite !length_app. cbn [List.length].
  set (n := List.length pre). set (k := List.length u).
  destruct (Z.eqb_spec (0 + Z.of_nat n) (-1)); [lia|].
  destruct (Z.eqb_spec (0 + Z.of_nat (n + (1 + k))) (-1)); [lia|].
  destruct (Z.gtb_spec (0 + Z.of_nat (n + (1 + k))) (0 + Z.of_nat n)); [|lia].
  cbn [negb andb].
  replace ((pre ++ [lparen] ++ u) ++ rparen :: post)
    with ((pre ++ [lparen]) ++ u ++ rparen :: post)
    by (rewrite <- !app_assoc; reflexivity).
  replace (0 + Z.of_nat n + 1)%Z with (Z.of_nat (List.length (pre ++ [lparen])))
    by (rewrite length_app; cbn [List.length]; lia).
  replace (0 + Z.of_nat (n + (1 + k)))%Z
    with (Z.of_nat (List.length (pre ++ [lparen]) + List.length u))
    by (rewrite length_app; cbn [List.length]; lia).
  apply slice_middle.
Qed.

Lemma infer_units_no_lparen (name : pystr) :
  ~ In lparen name -> infer_units name = [].
Proof.
  intros H. unfold infer_units.
  rewrite find_lparen, find_from_char_absent by exact H. reflexivity.
Qed.

Lemma infer_units_no_rparen (name : pystr) :
  ~ In rparen name -> infer_units name = [].
Proof.
  intros H. unfold infer_units.
  rewrite find_rparen, (@find_from_char_absent rparen) by exact H.
  rewrite andb_false_r. reflexivity.
Qed.

Lemma infer_units_rparen_first (pre post : pystr) :
  ~ In lparen pre -> ~ In rparen pre ->
  infer_units (pre ++ [rparen] ++ post) = [].
Proof.
  intros Hl Hr. unfold infer_units.
  rewrite find_lparen, find_rparen.
  rewrite (@find_from_char_skip rparen) by exact Hr.
  rewrite (@find_from_char_skip lparen) by exact Hl.
  cbn [app]. rewrite find_from_char_hit.
  cbn [find_from startswith]. change (lparen =? rparen)%N with false.
  cbn [andb].
  destruct (find_from_char_range lparen post (0 + Z.of_nat (List.length pre) + 1))
    as [H|H].
  - rewrite H. reflexivity.
  - destruct (Z.gtb_spec (0 + Z.of_nat (List.length pre))
                (find_from [lparen] post (0 + Z.of_nat (List.length pre) + 1)));
      [lia|].
    rewrite andb_false_r. reflexivity.
Qed.

Lemma build_figures_labels (df : DataFrame) (fig : Figure) :
  In fig (build_figures df) ->
  yaxis_title fig = y_label (title fig) /\ trace_name fig = title fig /\
  xaxis_title fig = s2u "Datum" /\ title fig <> Datum /\
  In (title fig) (column_names df).
Proof.
  unfold build_figures. intros H. apply in_map_iff in H.
  destruct H as [col [<- Hc]]. cbn.
  apply filter_In in Hc. destruct Hc as [Hin Hne].
  apply negb_true_iff, str_eqb_neq in Hne. auto.
Qed.

(** C7, amended: the y-axis label of a chart is the text between the
    first opening and the first closing parenthesis of the column name,
    provided the opening one comes first and the text is not empty; a name
    without such a pair, with the closing parenthesis first, or with
    nothing between the two gets the placeholder "Wert". *)
Theorem unit_label_from_first_parentheses (df : DataFrame) :
  (forall fig, In fig (build_figures df) ->
     yaxis_title fig = y_label (title fig)) /\
  (forall pre u post,
     ~ In lparen pre -> ~ In rparen pre -> ~ In rparen u -> u <> [] ->
     y_label (pre ++ [lparen] ++ u ++ [rparen] ++ post) = u) /\
  (forall pre post,
     ~ In lparen pre -> ~ In rparen pre ->
     y_label (pre ++ [lparen] ++ [rparen] ++ post) = s2u "Wert") /\
  (forall pre post,
     ~ In lparen pre -> ~ In rparen pre ->
     y_label (pre ++ [rparen] ++ post) = s2u "Wert") /\
  (forall name, ~ In lparen name -> y_label name = s2u "Wert") /\
  (forall name, ~ In rparen name -> y_label name = s2u "Wert").
Proof.
  split; [intros fig H; apply (build_figures_labels df fig H)|].
  split; [|split; [|split; [|split]]].
  - intros pre u post Hl Hr Hu Hne. unfold y_label.
    rewrite infer_units_between by assumption.
    destruct u; [congruence | reflexivity].
  - intros pre post Hl Hr. unfold y_label.
    change (pre ++ [lparen] ++ [rparen] ++ post)
      with (pre ++ [lparen] ++ [] ++ [rparen] ++ post).
    rewrite (@infer_units_between pre [] post) by (auto; intros []).
    reflexivity.
  - intros pre post Hl Hr. unfold y_label.
    rewrite infer_units_rparen_first by assumption. reflexivity.
  - intros name H. unfold y_label.
    rewrite infer_units_no_lparen by exact H. reflexivity.
  - intros name H. unfold y_label.
    rewrite infer_units_no_rparen by exact H. reflexivity.
Qed.

(** C7 as stated fails on a name whose first closing parenthesis precedes
    the parenthesized unit: the chart gets the placeholder. *)
Lemma parenthesized_unit_ignored :
  s2u "a) (kW)" = s2u "a) " ++ [lparen] ++ s2u "kW" ++ [rparen] ++ [] /\
  map yaxis_title
      (build_figures (mkFrame [0%nat]
                        [ (Datum, Datetime [Some 0%Z]);
                          (s2u "a) (kW)", Numeric [1%float]) ]))
    = [s2u "Wert"].
Proof. split; reflexivity. Qed.

(** ** Numeric coercion *)

Section Coercion.

Context {E : Externals}.

Lemma locale_text_replace (s : pystr) :
  replace (s2u ",") (s2u ".") (replace (s2u ".") [] s) = locale_text s.
Proof.
  unfold locale_text. change (s2u ",") with [44%N]. change (s2u ".") with [46%N].
  rewrite replace_char_nil, replace_char_char. reflexivity.
Qed.

Lemma coerce_texts (series : Series) :
  is_numeric_dtype series = false ->
  _coerce_numeric series
    = map (fun t => to_numeric_str (locale_text t)) (series_texts series).
Proof.
  destruct series as [v|v|v]; cbn [is_numeric_dtype]; [discriminate| |];
    intros _; unfold _coerce_numeric, series_texts;
    rewrite !map_map; apply map_ext; intros o;
    rewrite locale_text_replace; reflexivity.
Qed.

Lemma coerce_numeric_fixed (series : Series) :
  _coerce_numeric (Numeric (_coerce_numeric series)) = _coerce_numeric series.
Proof. reflexivity. Qed.

(** C4: the text "1.234,56" is handed to the number parser as "1234.56",
    so it coerces to the float 1234.56; a column that is already numeric
    keeps its values, and coercing a coerced column changes nothing. *)
Theorem locale_coercion_round_trip (v : list float) (series : Series) :
  to_numeric_str (s2u "1234.56") = 1234.56%float ->
  _coerce_numeric (Object [PyStr (s2u "1.234,56")]) = [1234.56%float] /\
  _coerce_numeric (Numeric v) = v /\
  _coerce_numeric (Numeric (_coerce_numeric series)) = _coerce_numeric series.
Proof.
  intros Hparse. split; [|split; reflexivity].
  rewrite coerce_texts by reflexivity.
  cbn [series_texts map obj_str].
  change (locale_text (s2u "1.234,56")) with (s2u "1234.56").
  rewrite Hparse. reflexivity.
Qed.

(** C10: on a column that is not numeric every [.] is deleted from the
    text before [,] becomes [.]; the text "1234.56" therefore reaches the
    number parser as "123456" and coerces to 123456.0, not to 1234.56. *)
Theorem dots_deleted_before_decimal_comma (series : Series) :
  to_numeric_str (s2u "123456") = 123456%float ->
  (is_numeric_dtype series = false ->
   _coerce_numeric series
     = map (fun t => to_numeric_str (map comma_to_dot (filter not_dot t)))
           (series_texts series)) /\
  locale_text (s2u "1234.56") = s2u "123456" /\
  _coerce_numeric (Object [PyStr (s2u "1234.56")]) = [123456%float] /\
  PrimFloat.eqb 123456 1234.56 = false.
Proof.
  intros Hparse. split; [apply coerce_texts|].
  split; [reflexivity|]. split; [|reflexivity].
  rewrite coerce_texts by reflexivity.
  cbn [series_texts map obj_str].
  change (locale_text (s2u "1234.56")) with (s2u "123456").
  rewrite Hparse. reflexivity.
Qed.

End Coercion.

Lemma locale_coercion_round_trip_sample :
  @to_numeric_str Sample.libs (s2u "1234.56") = 1234.56%float /\
  @_coerce_numeric Sample.libs (Object [PyStr (s2u "1.234,56")])
    = [1234.56%float] /\
  @_coerce_numeric Sample.libs (Numeric [1234.56%float]) = [1234.56%float].
Proof.
  assert (H : @to_numeric_str Sample.libs (s2u "1234.56") = 1234.56%float)
    by (vm_compute; reflexivity).
  split; [exact H|].
  destruct (@locale_coercion_round_trip Sample.libs [1234.56%float]
              (Numeric []) H) as [H1 [H2 _]].
  split; [exact H1 | exact H2].
Defined.

Lemma dots_deleted_sample :
  @to_numeric_str Sample.libs (s2u "123456") = 123456%float /\
  @_coerce_numeric Sample.libs (Object [PyStr (s2u "1234.56")])
    = [123456%float].
Proof.
  assert (H : @to_numeric_str Sample.libs (s2u "123456") = 123456%float)
    by (vm_compute; reflexivity).
  split; [exact H|].
  exact (proj1 (proj2 (proj2
           (@dots_deleted_before_decimal_comma Sample.libs (Object []) H)))).
Defined.

(** ** Reading *)

Section Reading.

Context {E : Externals}.

Lemma header_index_clamped (header_row : Z) :
  (header_row <= 1)%Z -> header_index header_row = 0%Z.
Proof. unfold header_index. lia. Qed.

Lemma read_loop_header (csv_path : Path) (h1 h2 : Z) (encs : list Encoding)
  (last_err : option pystr) :
  header_index h1 = header_index h2 ->
  read_loop csv_path h1 encs last_err = read_loop csv_path h2 encs last_err.
Proof.
  intros Hh. revert last_err.
  induction encs as [|enc encs IH]; intros last_err; simpl; [reflexivity|].
  rewrite Hh. destruct (read_csv csv_path enc (header_index h2)); auto.
Qed.

(** C9: every header row of at most 1 is read like header row 1: the
    header index handed to [read_csv] is clamped to 0 and the run, with
    whatever it returns or raises, is the run for header row 1. *)
Theorem header_row_clamped (csv_path : Path) (header_row : Z) :
  (header_row <= 1)%Z ->
  header_index header_row = 0%Z /\
  read_frame csv_path header_row = read_frame csv_path 1 /\
  load_csv csv_path header_row = load_csv csv_path 1 /\
  (forall output_path title_ w,
     generate_dashboard csv_path output_path title_ header_row w
       = generate_dashboard csv_path output_path title_ 1 w).
Proof.
  intros Hle.
  assert (H0 : header_index header_row = header_index 1).
  { rewrite header_index_clamped by exact Hle. reflexivity. }
  assert (Hread : read_frame csv_path header_row = read_frame csv_path 1).
  { unfold read_frame. rewrite (@read_loop_header csv_path _ _ _ _ H0). reflexivity. }
  assert (Hload : load_csv csv_path header_row = load_csv csv_path 1).
  { unfold load_csv. rewrite Hread. reflexivity. }
  split; [apply header_index_clamped; exact Hle|].
  split; [exact Hread|]. split; [exact Hload|].
  intros output_path title_ w. unfold generate_dashboard.
  rewrite Hload. reflexivity.
Qed.

End Reading.

Lemma header_row_clamped_sample :
  (-3 <= 1)%Z /\
  @header_index (-3) = 0%Z /\
  @load_csv Sample.libs (inr Sample.scenario_a) (-3)
    = @load_csv Sample.libs (inr Sample.scenario_a) 1.
Proof.
  assert (H : (-3 <= 1)%Z) by lia.
  split; [exact H|].
  destruct (@header_row_clamped Sample.libs (inr Sample.scenario_a) (-3) H)
    as [H1 [_ [H3 _]]].
  split; [exact H1 | exact H3].
Defined.

(** ** Frames *)

Lemma lookup_assign_same (cols : list (pystr * Series)) (n : pystr) (s : Series) :
  lookup (assign cols n s) n = Some s.
Proof.
  induction cols as [|[m s0] cols IH]; simpl.
  - rewrite str_eqb_refl. reflexivity.
  - destruct (str_eqb m n) eqn:H; simpl; rewrite H; auto.
Qed.

Lemma lookup_assign_other (cols : list (pystr * Series)) (n m : pystr) (s : Series) :
  str_eqb n m = false -> lookup (assign cols n s) m = lookup cols m.
Proof.
  intros Hnm. induction cols as [|[k s0] cols IH]; simpl.
  - rewrite Hnm. reflexivity.
  - destruct (str_eqb k n) eqn:H; simpl.
    + apply str_eqb_eq in H; subst k. rewrite Hnm. reflexivity.
    + destruct (str_eqb k m); auto.
Qed.

Lemma names_assign_present (cols : list (pystr * Series)) (n : pystr)
  (s s0 : Series) :
  lookup cols n = Some s0 -> map fst (assign cols n s) = map fst cols.
Proof.
  induction cols as [|[k s1] cols IH]; simpl; [discriminate|].
  destruct (str_eqb k n) eqn:H; simpl; [reflexivity|].
  intros Hl. rewrite IH by exact Hl. reflexivity.
Qed.

Lemma lookup_in (cols : list (pystr * Series)) (n : pystr) (s : Series) :
  lookup cols n = Some s -> In (n, s) cols.
Proof.
  induction cols as [|[k s1] cols IH]; simpl; [discriminate|].
  destruct (str_eqb k n) eqn:H.
  - apply str_eqb_eq in H; subst. intros Hs; inversion Hs; auto.
  - auto.
Qed.

Lemma lookup_names (cols : list (pystr * Series)) (n : pystr) :
  In n (map fst cols) -> exists s, lookup cols n = Some s.
Proof.
  induction cols as [|[k s1] cols IH]; simpl; [tauto|].
  intros [->|H].
  - rewrite str_eqb_refl. eauto.
  - destruct (str_eqb k n); eauto.
Qed.

Lemma existsb_str_eqb (n : pystr) (names : list pystr) :
  existsb (str_eqb n) names = true <-> In n names.
Proof.
  rewrite existsb_exists. split.
  - intros [x [Hx He]]. apply str_eqb_eq in He; subst; exact Hx.
  - intros H. exists n. split; [exact H | apply str_eqb_refl].
Qed.

Lemma distinct_cons (n : pystr) (names : list pystr) :
  distinct (n :: names) = true <-> ~ In n names /\ distinct names = true.
Proof.
  simpl. rewrite andb_true_iff, negb_true_iff.
  rewrite <- existsb_str_eqb.
  destruct (existsb (str_eqb n) names); split; intros [H1 H2]; split;
    auto; congruence.
Qed.

Lemma in_lookup (cols : list (pystr * Series)) (n : pystr) (s : Series) :
  distinct (map fst cols) = true -> In (n, s) cols -> lookup cols n = Some s.
Proof.
  induction cols as [|[k s1] cols IH]; [intros _ []|].
  cbn [map fst]. rewrite distinct_cons. intros [Hk Hd] [H|H]; cbn [lookup].
  - inversion H; subst. rewrite str_eqb_refl. reflexivity.
  - destruct (str_eqb k n) eqn:He.
    + apply str_eqb_eq in He; subst k. exfalso. apply Hk.
      apply in_map_iff. exists (n, s). auto.
    + apply IH; assumption.
Qed.

(** Boolean indexing. *)
Lemma take_mask_in (A : Type) (mask : list bool) (l : list A) (x : A) :
  In x (take_mask mask l) -> In x l.
Proof.
  revert l; induction mask as [|b mask IH]; intros [|y l]; simpl; try tauto.
  destruct b; simpl; intros H; [destruct H as [H|H]|]; auto.
Qed.

Lemma take_mask_seq (mask : list bool) (a n i : nat) :
  In i (take_mask mask (seq a n)) -> nth (i - a) mask false = true.
Proof.
  revert a n; induction mask as [|b mask IH]; intros a [|n]; simpl; try tauto.
  destruct b; simpl.
  - intros [->|H].
    + rewrite Nat.sub_diag. reflexivity.
    + assert (Hi : S a <= i).
      { apply take_mask_in, in_seq in H. lia. }
      apply IH in H. replace (i - a) with (S (i - S a)) by lia. exact H.
  - intros H.
    assert (Hi : S a <= i).
    { apply take_mask_in, in_seq in H. lia. }
    apply IH in H. replace (i - a) with (S (i - S a)) by lia. exact H.
Qed.

Lemma take_mask_length (A B : Type) (mask : list bool) (l1 : list A) (l2 : list B) :
  List.length l1 = List.length l2 ->
  List.length (take_mask mask l1) = List.length (take_mask mask l2).
Proof.
  revert l1 l2; induction mask as [|b mask IH]; intros [|x l1] [|y l2];
    simpl; try discriminate; auto.
  intros H. injection H as H. destruct b; simpl; auto.
Qed.

Lemma take_mask_none (A : Type) (mask : list bool) (l : list A) :
  forallb negb mask = true -> take_mask mask l = [].
Proof.
  revert l; induction mask as [|b mask IH]; intros [|x l]; simpl; auto.
  destruct b; simpl; [discriminate | auto].
Qed.

Lemma series_take_len (mask : list bool) (s : Series) (A : Type) (l : list A) :
  series_len s = List.length l ->
  series_len (series_take mask s) = List.length (take_mask mask l).
Proof.
  destruct s; simpl; apply take_mask_length.
Qed.

Lemma aligned_spec (df : DataFrame) :
  aligned df = true <->
  forall c, In c (columns df) -> series_len (snd c) = List.length (index df).
Proof.
  unfold aligned. rewrite forallb_forall. split; intros H c Hc.
  - apply Nat.eqb_eq, H, Hc.
  - apply Nat.eqb_eq, H, Hc.
Qed.

Lemma aligned_frame_take (mask : list bool) (df : DataFrame) :
  aligned df = true -> aligned (frame_take mask df) = true.
Proof.
  rewrite !aligned_spec. intros H c Hc. cbn [frame_take columns index] in *.
  apply in_map_iff in Hc. destruct Hc as [c0 [<- Hc0]]. cbn [snd].
  apply series_take_len, H, Hc0.
Qed.

Lemma in_assign (cols : list (pystr * Series)) (n : pystr) (s : Series)
  (c : pystr * Series) :
  In c (assign cols n s) -> In c cols \/ snd c = s.
Proof.
  induction cols as [|[k s1] cols IH]; simpl.
  - intros [<-|[]]. right; reflexivity.
  - destruct (str_eqb k n); simpl.
    + intros [<-|H]; auto.
    + intros [<-|H]; auto. destruct (IH H); auto.
Qed.

Lemma aligned_setitem (df : DataFrame) (n : pystr) (s : Series) :
  aligned df = true -> series_len s = List.length (index df) ->
  aligned (setitem df n s) = true.
Proof.
  rewrite !aligned_spec. intros H Hs c Hc. cbn [setitem columns index] in *.
  apply in_assign in Hc. destruct Hc as [Hc | ->]; auto.
Qed.

(** ** Column selection *)

Section Selection.

Context {E : Externals}.

Lemma survives_setitem (df : DataFrame) (col c : pystr) (s : Series) :
  getitem df col = Some s ->
  survives (setitem df col (Numeric (_coerce_numeric s))) c = survives df c.
Proof.
  intros Hs. unfold survives, getitem. cbn [setitem columns].
  destruct (str_eqb col c) eqn:Hc.
  - apply str_eqb_eq in Hc; subst c.
    rewrite lookup_assign_same. unfold getitem in Hs. rewrite Hs. reflexivity.
  - rewrite lookup_assign_other by exact Hc. reflexivity.
Qed.

Lemma filter_survives_setitem (df : DataFrame) (col : pystr) (s : Series)
  (cols : list pystr) :
  getitem df col = Some s ->
  filter (survives (setitem df col (Numeric (_coerce_numeric s)))) cols
    = filter (survives df) cols.
Proof.
  intros Hs. apply filter_ext. intros c. apply survives_setitem; exact Hs.
Qed.

(** The loop collects, in encounter order, the labels that survive, and
    leaves index and labels of the frame as they were. *)
Lemma numeric_loop_spec (cols : list pystr) (df : DataFrame) (acc : list pystr) :
  snd (numeric_loop cols df acc) = acc ++ filter (survives df) cols /\
  index (fst (numeric_loop cols df acc)) = index df /\
  column_names (fst (numeric_loop cols df acc)) = column_names df.
Proof.
  revert df acc. induction cols as [|col cols IH]; intros df acc.
  - simpl. rewrite app_nil_r. auto.
  - cbn [numeric_loop filter]. unfold survives at 1.
    destruct (str_eqb col Datum) eqn:Hd; cbn [negb andb]; [apply IH|].
    destruct (getitem df col) as [s|] eqn:Hs; [|apply IH].
    destruct (any_positive (_coerce_numeric s)) eqn:Hp; [|apply IH].
    destruct (IH (setitem df col (Numeric (_coerce_numeric s))) (acc ++ [col]))
      as [H1 [H2 H3]].
    rewrite H1, H2, H3, filter_survives_setitem by exact Hs.
    split; [rewrite <- app_assoc; reflexivity|].
    split; [reflexivity|].
    unfold column_names. cbn [setitem columns].
    eapply names_assign_present. exact Hs.
Qed.

Lemma survives_not_datum (df : DataFrame) (c : pystr) :
  survives df c = true -> str_eqb c Datum = false.
Proof.
  unfold survives. rewrite andb_true_iff, negb_true_iff. tauto.
Qed.

Lemma select_names (df : DataFrame) (names : list pystr) :
  (forall n, In n names -> In n (column_names df)) ->
  column_names (select_columns df names) = names.
Proof.
  unfold column_names, select_columns. cbn [columns].
  induction names as [|n names IH]; intros H; [reflexivity|].
  cbn [flat_map]. rewrite map_app, IH by (intros m Hm; apply H; right; exact Hm).
  destruct (lookup_names (columns df) n) as [s Hs].
  { apply H; left; reflexivity. }
  unfold getitem. rewrite Hs. reflexivity.
Qed.

Lemma select_names_cons (df : DataFrame) (n : pystr) (names : list pystr) :
  column_names (select_columns df (n :: names))
    = match getitem df n with
      | Some _ => [n]
      | None => []
      end ++ column_names (select_columns df names).
Proof.
  unfold column_names, select_columns. cbn [columns flat_map].
  rewrite map_app. destruct (getitem df n); reflexivity.
Qed.

Lemma select_names_sub (df : DataFrame) (names : list pystr) (n : pystr) :
  In n (column_names (select_columns df names)) -> In n names.
Proof.
  unfold column_names, select_columns. cbn [columns].
  induction names as [|m names IH]; [intros []|].
  cbn [flat_map]. rewrite map_app, in_app_iff. intros [H|H].
  - destruct (getitem df m); simpl in H; [|tauto].
    destruct H as [<-|[]]. left; reflexivity.
  - right; apply IH; exact H.
Qed.

Lemma build_figures_titles (df : DataFrame) :
  map title (build_figures df)
    = filter (fun c => negb (str_eqb c Datum)) (column_names df).
Proof.
  unfold build_figures. rewrite map_map. cbn [title]. apply map_id.
Qed.

Lemma filter_all (A : Type) (f : A -> bool) (l : list A) :
  (forall x, In x l -> f x = true) -> filter f l = l.
Proof.
  induction l as [|x l IH]; intros H; [reflexivity|].
  simpl. rewrite (H x) by (left; reflexivity).
  rewrite IH; auto. intros y Hy; apply H; right; exact Hy.
Qed.

(** The charts of a run are the surviving labels, in column order. *)
Lemma chart_columns_select (df : DataFrame) :
  chart_columns (select_numeric df) = filter (survives df) (column_names df).
Proof.
  unfold select_numeric.
  destruct (numeric_loop_spec (column_names df) df []) as [H1 [H2 H3]].
  destruct (numeric_loop (column_names df) df []) as [df' nc].
  cbn [fst snd app] in *. rewrite <- H1.
  destruct nc as [|c nc]; [reflexivity|].
  cbn [chart_columns]. rewrite build_figures_titles.
  assert (Hsub : forall n, In n (c :: nc) -> In n (column_names df')).
  { intros n Hn. rewrite H3. rewrite H1 in Hn.
    apply filter_In in Hn. tauto. }
  assert (Hnd : forall n, In n (c :: nc) -> negb (str_eqb n Datum) = true).
  { intros n Hn. rewrite H1 in Hn. apply filter_In in Hn.
    apply negb_true_iff, (survives_not_datum df), Hn. }
  rewrite select_names_cons, filter_app.
  replace (filter (fun c0 => negb (str_eqb c0 Datum))
             match getitem df' Datum with
             | Some _ => [Datum]
             | None => []
             end) with (@nil pystr)
    by (destruct (getitem df' Datum); reflexivity).
  cbn [app]. rewrite select_names by exact Hsub.
  apply filter_all. exact Hnd.
Qed.

(** The returned frame has the date column first, then the surviving
    columns in the order they were met. *)
Lemma select_numeric_columns (df out : DataFrame) :
  has_column df Datum = true -> select_numeric df = inr out ->
  column_names out = Datum :: filter (survives df) (column_names df) /\
  exists s, getitem out Datum = Some s.
Proof.
  unfold select_numeric, has_column. rewrite existsb_str_eqb.
  destruct (numeric_loop_spec (column_names df) df []) as [H1 [H2 H3]].
  destruct (numeric_loop (column_names df) df []) as [df' nc].
  cbn [fst snd app] in *. rewrite <- H1.
  destruct nc as [|c nc]; [discriminate|].
  intros Hdat H; inversion H; subst out; clear H.
  rewrite <- H3 in Hdat.
  destruct (lookup_names _ _ Hdat) as [s Hs].
  split.
  - apply select_names. intros n [<-|Hn]; [exact Hdat|].
    rewrite H3. rewrite H1 in Hn. apply filter_In in Hn. tauto.
  - exists s. unfold getitem, select_columns. cbn [columns flat_map].
    fold (getitem df' Datum). unfold getitem at 1. rewrite Hs.
    cbn [app lookup]. rewrite str_eqb_refl. reflexivity.
Qed.

Lemma select_numeric_fails (df : DataFrame) :
  select_numeric df = inl (RuntimeError msg_no_columns) <->
  filter (survives df) (column_names df) = [].
Proof.
  unfold select_numeric.
  destruct (numeric_loop_spec (column_names df) df []) as [H1 _].
  destruct (numeric_loop (column_names df) df []) as [df' nc].
  cbn [fst snd app] in H1. rewrite <- H1.
  destruct nc; split; intros H; try reflexivity; discriminate.
Qed.

Lemma select_numeric_error (df : DataFrame) (e : exn) :
  select_numeric df = inl e -> e = RuntimeError msg_no_columns.
Proof.
  unfold select_numeric.
  destruct (numeric_loop (column_names df) df []) as [df' nc].
  destruct nc; intros H; inversion H; reflexivity.
Qed.

Lemma select_numeric_index (df out : DataFrame) :
  select_numeric df = inr out -> index out = index df.
Proof.
  unfold select_numeric.
  destruct (numeric_loop_spec (column_names df) df []) as [_ [H2 _]].
  destruct (numeric_loop (column_names df) df []) as [df' nc].
  destruct nc; intros H; inversion H. cbn [select_columns index fst] in *.
  exact H2.
Qed.

Lemma any_positive_spec (coerced : list float) :
  any_positive coerced = true <->
  exists v, In v coerced /\ PrimFloat.ltb 0 v = true.
Proof. apply existsb_exists. Qed.

Lemma survives_spec (df : DataFrame) (c : pystr) :
  distinct (column_names df) = true ->
  (In c (column_names df) /\ survives df c = true <->
   c <> Datum /\
   exists s, In (c, s) (columns df) /\
             exists v, In v (_coerce_numeric s) /\ PrimFloat.ltb 0 v = true).
Proof.
  intros Hd. unfold survives, getitem.
  rewrite andb_true_iff, negb_true_iff, str_eqb_neq. split.
  - intros [_ [Hne Hs]].
    destruct (lookup (columns df) c) as [s|] eqn:Hl; [|discriminate].
    split; [exact Hne|]. exists s.
    split; [apply lookup_in; exact Hl | apply any_positive_spec; exact Hs].
  - intros [Hne [s [Hin Hv]]].
    split; [apply in_map_iff; exists (c, s); auto|].
    split; [exact Hne|].
    rewrite (in_lookup _ _ _ Hd Hin). apply any_positive_spec; exact Hv.
Qed.

End Selection.

(** ** Normalization *)

Lemma clean_column_update (cols : list (pystr * Series)) (l : pystr) :
  match lookup cols l with
  | Some (Object v) => assign cols l (Object (clean_object_series v))
  | _ => cols
  end = update_first l cols.
Proof.
  induction cols as [|[n s] cols IH]; [reflexivity|].
  cbn [lookup update_first]. destruct (str_eqb n l) eqn:Hn.
  - destruct s; cbn [assign clean_series]; rewrite ?Hn; reflexivity.
  - rewrite <- IH. destruct (lookup cols l) as [[v|v|v]|]; try reflexivity.
    cbn [assign]. rewrite Hn. reflexivity.
Qed.

Lemma clean_column_frame (df : DataFrame) (l : pystr) :
  clean_column df l = mkFrame (index df) (update_first l (columns df)).
Proof.
  rewrite <- clean_column_update. unfold clean_column, getitem, setitem.
  destruct df as [idx cols]. cbn [index columns].
  destruct (lookup cols l) as [[v|v|v]|]; reflexivity.
Qed.

Lemma clean_fold_frame (labels : list pystr) (df : DataFrame) :
  fold_left clean_column labels df
    = mkFrame (index df)
              (fold_left (fun cols l => update_first l cols) labels (columns df)).
Proof.
  revert df. induction labels as [|l labels IH]; intros df.
  - destruct df; reflexivity.
  - cbn [fold_left]. rewrite IH, clean_column_frame. reflexivity.
Qed.

Lemma update_fold_skip (labels : list pystr) (x : pystr * Series)
  (rest : list (pystr * Series)) :
  (forall l, In l labels -> str_eqb (fst x) l = false) ->
  fold_left (fun cols l => update_first l cols) labels (x :: rest)
    = x :: fold_left (fun cols l => update_first l cols) labels rest.
Proof.
  revert rest. induction labels as [|l labels IH]; intros rest H; [reflexivity|].
  cbn [fold_left]. destruct x as [n s]. cbn [update_first fst] in *.
  rewrite (H l) by (left; reflexivity).
  apply IH. intros l' Hl'. apply H. right; exact Hl'.
Qed.

Lemma clean_fold_columns (cols : list (pystr * Series)) :
  distinct (map fst cols) = true ->
  fold_left (fun cs l => update_first l cs)
            (map fst (filter (fun c => is_object_dtype (snd c)) cols)) cols
    = map (fun c => (fst c, clean_series (snd c))) cols.
Proof.
  induction cols as [|[n s] cols IH]; [reflexivity|].
  cbn [map fst]. rewrite distinct_cons. intros [Hn Hd].
  assert (Hskip : forall l,
             In l (map fst (filter (fun c => is_object_dtype (snd c)) cols)) ->
             str_eqb n l = false).
  { intros l Hl. apply str_eqb_neq. intros ->. apply Hn.
    apply in_map_iff in Hl. destruct Hl as [c [<- Hc]].
    apply filter_In in Hc. apply in_map. tauto. }
  cbn [filter snd]. destruct (is_object_dtype s) eqn:Hs.
  - cbn [map fst fold_left update_first]. rewrite str_eqb_refl.
    rewrite update_fold_skip by exact Hskip.
    rewrite IH by exact Hd. reflexivity.
  - rewrite update_fold_skip by exact Hskip.
    rewrite IH by exact Hd. cbn [snd fst].
    destruct s; try discriminate; reflexivity.
Qed.

(** With distinct labels [_clean_object_columns] cleans every object
    column and leaves the rest of the frame alone. *)
Lemma clean_object_columns_frame (df : DataFrame) :
  distinct (column_names df) = true ->
  _clean_object_columns df
    = mkFrame (index df)
              (map (fun c => (fst c, clean_series (snd c))) (columns df)).
Proof.
  intros Hd. unfold _clean_object_columns, object_labels.
  rewrite clean_fold_frame, clean_fold_columns by exact Hd. reflexivity.
Qed.

Lemma series_len_clean (s : Series) : series_len (clean_series s) = series_len s.
Proof.
  destruct s; try reflexivity. cbn [clean_series series_len].
  rewrite clean_object_series_cells. apply length_map.
Qed.

Lemma range_seq (l : list nat) (a : nat) :
  forallb (fun p => Nat.eqb (fst p) (snd p)) (combine l (seq a (List.length l)))
    = true ->
  l = seq a (List.length l).
Proof.
  revert a. induction l as [|x l IH]; intros a; [reflexivity|].
  cbn. rewrite andb_true_iff, Nat.eqb_eq. intros [-> H].
  f_equal. apply IH. exact H.
Qed.

Lemma nth_true_in (mask : list bool) (i : nat) :
  nth i mask false = true -> existsb (fun b : bool => b) mask = true.
Proof.
  intros H. apply existsb_exists. exists true. split; [|reflexivity].
  rewrite <- H. apply nth_In.
  destruct (Nat.lt_ge_cases i (List.length mask)) as [Hl|Hl]; [exact Hl|].
  rewrite nth_overflow in H by exact Hl. discriminate.
Qed.

Lemma any_axis1_nth (rows i : nat) (m : list (list bool)) :
  i < rows ->
  nth i (any_axis1 rows m) false = existsb (fun col => nth i col false) m.
Proof.
  intros Hi. unfold any_axis1.
  rewrite (nth_indep _ false (existsb (fun col => nth 0 col false) m))
    by (rewrite length_map, length_seq; exact Hi).
  rewrite (map_nth (fun i => existsb (fun col => nth i col false) m)).
  rewrite seq_nth by exact Hi. reflexivity.
Qed.

Lemma drop_definition_rows_index (df : DataFrame) (i : nat) :
  In i (index (drop_definition_rows df)) -> In i (index df).
Proof.
  unfold drop_definition_rows.
  destruct (existsb _ _); auto. cbn [frame_take index]. apply take_mask_in.
Qed.

Lemma drop_definition_rows_names (df : DataFrame) :
  column_names (drop_definition_rows df) = column_names df.
Proof.
  unfold drop_definition_rows, column_names.
  destruct (existsb _ _); auto. cbn [frame_take columns].
  rewrite map_map. reflexivity.
Qed.

Lemma drop_definition_rows_aligned (df : DataFrame) :
  aligned df = true -> aligned (drop_definition_rows df) = true.
Proof.
  unfold drop_definition_rows. destruct (existsb _ _); auto.
  apply aligned_frame_take.
Qed.

(** A row in which some column's mask bit is set is not kept. *)
Lemma drop_definition_rows_excludes (df : DataFrame) (i : nat)
  (c : pystr * Series) :
  range_indexed df = true ->
  In c (columns df) -> nth i (marker_mask (snd c)) false = true ->
  In i (index (drop_definition_rows df)) -> False.
Proof.
  intros Hr Hc Hbit Hi.
  apply range_seq in Hr.
  assert (Hm : In (marker_mask (snd c)) (definition_mask df)).
  { unfold definition_mask. apply (in_map (fun c => marker_mask (snd c))). exact Hc. }
  assert (Hany : existsb (fun b : bool => b) (any_axis0 (definition_mask df)) = true).
  { apply existsb_exists. exists true. split; [|reflexivity].
    unfold any_axis0. apply in_map_iff.
    exists (marker_mask (snd c)). split; [|exact Hm].
    eapply nth_true_in; exact Hbit. }
  unfold drop_definition_rows in Hi. rewrite Hany in Hi.
  cbn [frame_take index] in Hi.
  set (n := List.length (index df)) in *. rewrite Hr in Hi.
  assert (Hlt : i < n).
  { apply take_mask_in, in_seq in Hi. lia. }
  apply take_mask_seq in Hi. rewrite Nat.sub_0_r in Hi.
  rewrite (nth_indep _ false (negb true)) in Hi
    by (unfold any_axis1; rewrite !length_map, length_seq; exact Hlt).
  rewrite map_nth in Hi.
  rewrite (nth_indep _ true false) in Hi
    by (unfold any_axis1; rewrite !length_map, length_seq; exact Hlt).
  rewrite any_axis1_nth in Hi by exact Hlt.
  apply negb_true_iff in Hi.
  assert (Hex : existsb (fun col => nth i col false) (definition_mask df) = true).
  { apply existsb_exists. exists (marker_mask (snd c)). auto. }
  congruence.
Qed.

Lemma well_formed_spec (raw : DataFrame) :
  well_formed raw = true <->
  distinct_labels raw = true /\
  range_indexed raw = true /\ aligned raw = true.
Proof. unfold well_formed. rewrite !andb_true_iff. tauto. Qed.

Lemma normalize_frame (raw : DataFrame) :
  distinct_labels raw = true ->
  normalize raw
    = drop_definition_rows
        (mkFrame (index raw)
                 (map (fun c => (strip (fst c), clean_series (snd c)))
                      (columns raw))).
Proof.
  intros Hd. unfold normalize. rewrite clean_object_columns_frame.
  - cbn [index columns]. rewrite map_map. reflexivity.
  - unfold distinct_labels, column_names in *. cbn [columns].
    rewrite map_map. rewrite map_map in Hd. exact Hd.
Qed.

Lemma normalize_names (raw : DataFrame) :
  distinct_labels raw = true ->
  column_names (normalize raw) = map strip (column_names raw).
Proof.
  intros Hd. rewrite normalize_frame by exact Hd.
  rewrite drop_definition_rows_names. unfold column_names. cbn [columns].
  rewrite !map_map. reflexivity.
Qed.

Lemma normalize_aligned (raw : DataFrame) :
  distinct_labels raw = true -> aligned raw = true ->
  aligned (normalize raw) = true.
Proof.
  intros Hd Ha.
  rewrite normalize_frame by exact Hd.
  apply drop_definition_rows_aligned.
  rewrite aligned_spec in *. cbn [columns index]. intros c Hc.
  apply in_map_iff in Hc. destruct Hc as [c0 [<- Hc0]]. cbn [snd].
  rewrite series_len_clean. apply Ha, Hc0.
Qed.

Lemma nth_map_error (A B : Type) (f : A -> B) (l : list A) (i : nat) (x : A) (d : B) :
  nth_error l i = Some x -> nth i (map f l) d = f x.
Proof.
  revert i; induction l as [|y l IH]; intros [|i]; simpl; try discriminate.
  - intros H; inversion H; reflexivity.
  - apply IH.
Qed.

(** The mask bit of a cleaned column is set wherever the raw cell holds
    the marker. *)
Lemma marker_bit_of_raw_cell (s : Series) (i : nat) (text : pystr) :
  cell_text s i = Some text -> contains marker text = true ->
  nth i (marker_mask (clean_series s)) false = true.
Proof.
  destruct s as [v|v|v]; cbn [cell_text]; try discriminate.
  destruct (nth_error v i) as [[t| |]|] eqn:Hn; try discriminate.
  intros H Hm; inversion H; subst t; clear H.
  cbn [clean_series marker_mask]. rewrite clean_object_series_cells, map_map.
  rewrite (nth_map_error _ _ _ false Hn). cbn [clean_cell].
  apply marker_survives_cleaning in Hm.
  destruct (clean_text text); [discriminate | exact Hm].
Qed.

Lemma normalize_excludes (raw : DataFrame) (i : nat) (c : pystr) (s : Series)
  (text : pystr) :
  well_formed raw = true ->
  In (c, s) (columns raw) -> cell_text s i = Some text ->
  contains marker text = true ->
  In i (index (normalize raw)) -> False.
Proof.
  rewrite well_formed_spec. intros [Hd [Hr _]] Hc Ht Hm Hi.
  rewrite normalize_frame in Hi by exact Hd.
  eapply (@drop_definition_rows_excludes
            (mkFrame (index raw)
                     (map (fun c => (strip (fst c), clean_series (snd c)))
                          (columns raw)))
            i (strip c, clean_series s));
    [exact Hr | | | exact Hi].
  - cbn [columns].
    apply (in_map (fun c => (strip (fst c), clean_series (snd c))) _ (c, s)).
    exact Hc.
  - cbn [snd]. eapply marker_bit_of_raw_cell; eassumption.
Qed.

Section Dates.

Context {E : Externals}.

Lemma frame_take_names (mask : list bool) (df : DataFrame) :
  column_names (frame_take mask df) = column_names df.
Proof.
  unfold column_names. cbn [frame_take columns]. rewrite map_map. reflexivity.
Qed.

Lemma dropna_datum_facts (df : DataFrame) :
  (forall i, In i (index (dropna_datum df)) -> In i (index df)) /\
  (aligned df = true -> aligned (dropna_datum df) = true) /\
  column_names (dropna_datum df) = column_names df.
Proof.
  unfold dropna_datum. destruct (getitem df Datum) as [s|]; [|auto].
  split; [intros i; cbn [frame_take index]; apply take_mask_in|].
  split; [apply aligned_frame_take | apply frame_take_names].
Qed.

Lemma series_len_to_datetime (s : Series) :
  series_len (pd_to_datetime s) = series_len s.
Proof.
  unfold pd_to_datetime. cbn [series_len]. rewrite length_map, length_seq.
  reflexivity.
Qed.

Lemma parse_dates_facts (dfn df : DataFrame) :
  parse_dates dfn = inr df ->
  (forall i, In i (index df) -> In i (index dfn)) /\
  (aligned dfn = true -> aligned df = true) /\
  column_names df = column_names dfn.
Proof.
  unfold parse_dates. destruct (has_column dfn Datum); cbn [negb]; [|discriminate].
  intros H; inversion H; subst df; clear H.
  destruct (getitem dfn Datum) as [s|] eqn:Hs; [|apply dropna_datum_facts].
  destruct (dropna_datum_facts (setitem dfn Datum (pd_to_datetime s)))
    as [H1 [H2 H3]].
  split; [exact H1|]. split.
  - intros Ha. apply H2. apply aligned_setitem; [exact Ha|].
    rewrite series_len_to_datetime.
    rewrite aligned_spec in Ha.
    apply (Ha (Datum, s)). apply lookup_in. exact Hs.
  - rewrite H3. unfold column_names. cbn [setitem columns].
    eapply names_assign_present. exact Hs.
Qed.

Lemma parse_dates_error (dfn : DataFrame) (e : exn) :
  parse_dates dfn = inl e -> e = RuntimeError msg_no_datum.
Proof.
  unfold parse_dates. destruct (has_column dfn Datum); cbn [negb];
    intros H; inversion H; reflexivity.
Qed.

Lemma prepare_index (raw df : DataFrame) (i : nat) :
  prepare raw = inr df -> In i (index df) -> In i (index (normalize raw)).
Proof.
  intros Hp. unfold prepare in Hp. apply (parse_dates_facts _ Hp).
Qed.

Lemma prepare_aligned (raw df : DataFrame) :
  distinct_labels raw = true -> aligned raw = true ->
  prepare raw = inr df -> aligned df = true.
Proof.
  intros Hd Ha Hp. unfold prepare in Hp.
  apply (parse_dates_facts _ Hp). apply normalize_aligned; assumption.
Qed.

Lemma prepare_distinct (raw df : DataFrame) :
  distinct_labels raw = true -> prepare raw = inr df ->
  distinct (column_names df) = true.
Proof.
  intros Hd Hp. unfold prepare in Hp.
  destruct (parse_dates_facts _ Hp) as [_ [_ H3]].
  rewrite H3, normalize_names by exact Hd. exact Hd.
Qed.

Lemma coerce_empty (s : Series) : series_len s = 0 -> _coerce_numeric s = [].
Proof.
  destruct s as [[|x v]|[|x v]|[|x v]]; cbn; try discriminate; reflexivity.
Qed.

Lemma no_rows_no_survivor (df : DataFrame) :
  aligned df = true -> index df = [] ->
  filter (survives df) (column_names df) = [].
Proof.
  intros Ha Hi. rewrite aligned_spec in Ha.
  induction (column_names df) as [|c names IH]; [reflexivity|].
  cbn [filter]. rewrite IH.
  assert (Hc : survives df c = false); [|rewrite Hc; reflexivity].
  unfold survives. destruct (getitem df c) as [s|] eqn:Hs;
    [|apply andb_false_r].
  apply lookup_in in Hs. apply Ha in Hs. cbn [snd] in Hs.
  rewrite Hi in Hs. rewrite coerce_empty by exact Hs. apply andb_false_r.
Qed.

(** C1, amended: when no row survives date parsing the run fails, with
    the very [RuntimeError] it raises when no column survives the
    positive-value filter; parsing dates has no failure of its own. *)
Theorem no_dated_row_fails_as_no_column (csv_path : Path) (header_row : Z)
  (raw df : DataFrame) :
  read_frame csv_path header_row = inr raw ->
  distinct_labels raw = true -> aligned raw = true ->
  prepare raw = inr df ->
  index df = [] ->
  load_csv csv_path header_row = inl (RuntimeError msg_no_columns).
Proof.
  intros Hread Hd Ha Hp Hi. unfold load_csv, process. rewrite Hread, Hp.
  apply select_numeric_fails. apply no_rows_no_survivor; [|exact Hi].
  exact (prepare_aligned raw Hd Ha Hp).
Qed.

(** C2: a column other than the date column is charted exactly when one
    of its coerced values, over the rows that were kept, exceeds zero. *)
Theorem chart_iff_positive_value (csv_path : Path) (header_row : Z)
  (raw df : DataFrame) (c : pystr) :
  read_frame csv_path header_row = inr raw ->
  distinct_labels raw = true ->
  prepare raw = inr df ->
  (In c (chart_columns (load_csv csv_path header_row)) <->
   c <> Datum /\
   exists s, In (c, s) (columns df) /\
             exists v, In v (_coerce_numeric s) /\ PrimFloat.ltb 0 v = true).
Proof.
  intros Hread Hd Hp. unfold load_csv, process. rewrite Hread, Hp.
  rewrite chart_columns_select, filter_In.
  apply survives_spec. exact (prepare_distinct raw Hd Hp).
Qed.

Lemma messages_differ (e : pystr) :
  msg_unreadable e <> msg_no_columns /\ msg_no_datum <> msg_no_columns.
Proof. split; discriminate. Qed.

Lemma no_survivor_spec (df : DataFrame) :
  distinct (column_names df) = true ->
  (filter (survives df) (column_names df) = [] <->
   forall c s, In (c, s) (columns df) -> c <> Datum ->
     forall v, In v (_coerce_numeric s) -> PrimFloat.ltb 0 v = false).
Proof.
  intros Hd. split.
  - intros Hnil c s Hin Hne v Hv.
    destruct (PrimFloat.ltb 0 v) eqn:Hpos; [exfalso | reflexivity].
    assert (H : In c (filter (survives df) (column_names df))).
    { apply filter_In. apply (survives_spec df c Hd). eauto 6. }
    rewrite Hnil in H. exact H.
  - intros H. destruct (filter (survives df) (column_names df)) as [|c l] eqn:Hf;
      [reflexivity | exfalso].
    assert (Hc : In c (filter (survives df) (column_names df)))
      by (rewrite Hf; left; reflexivity).
    apply filter_In, (survives_spec df c Hd) in Hc.
    destruct Hc as [Hne [s [Hin [v [Hv Hpos]]]]].
    rewrite (H c s Hin Hne v Hv) in Hpos. discriminate.
Qed.

(** C5: the run fails with the no-column [RuntimeError] only once the
    frame is read and its dates are parsed, and then exactly when no
    column other than the date column has a coerced value above zero; no
    other failure arises at that stage. *)
Theorem no_column_error_iff_none_survives (csv_path : Path) (header_row : Z) :
  (load_csv csv_path header_row = inl (RuntimeError msg_no_columns) ->
   exists raw df,
     read_frame csv_path header_row = inr raw /\ prepare raw = inr df) /\
  (forall raw df,
     read_frame csv_path header_row = inr raw ->
     distinct_labels raw = true ->
     prepare raw = inr df ->
     (load_csv csv_path header_row = inl (RuntimeError msg_no_columns) <->
      forall c s, In (c, s) (columns df) -> c <> Datum ->
        forall v, In v (_coerce_numeric s) -> PrimFloat.ltb 0 v = false) /\
     (forall e, load_csv csv_path header_row = inl e ->
        e = RuntimeError msg_no_columns)).
Proof.
  split.
  - unfold load_csv, read_frame, process.
    destruct (read_loop csv_path header_row [utf_8_sig; cp1252] None)
      as [[raw|] last_err].
    + destruct (prepare raw) as [e|df] eqn:Hp; [|eauto].
      apply parse_dates_error in Hp. subst e.
      intros H; inversion H.
    + intros H; inversion H.
  - intros raw df Hread Hd Hp. unfold load_csv, process. rewrite Hread, Hp.
    split.
    + rewrite select_numeric_fails. apply no_survivor_spec.
      exact (prepare_distinct raw Hd Hp).
    + intros e. apply select_numeric_error.
Qed.

End Dates.

(** ** The document *)

Section Rendering.

Context {E : Externals}.

(** The cards depend on the random source only through the ids it hands
    out, one per figure. *)
Lemma render_cards_draws (figures : list Figure) (idx : nat) (w1 w2 : World) :
  draws (List.length figures) w1 = draws (List.length figures) w2 ->
  fst (render_cards figures idx w1) = fst (render_cards figures idx w2).
Proof.
  revert idx w1 w2. induction figures as [|fig figures IH]; intros idx w1 w2 H;
    [reflexivity|].
  cbn [List.length draws render_cards] in *.
  destruct (uuid4 w1) as [id1 w1'], (uuid4 w2) as [id2 w2'].
  injection H as Hid Hrest. subst id2.
  specialize (IH (S idx) w1' w2' Hrest).
  destruct (render_cards figures (S idx) w1') as [c1 v1].
  destruct (render_cards figures (S idx) w2') as [c2 v2].
  cbn [fst] in *. rewrite IH. reflexivity.
Qed.

Lemma render_cards_length (figures : list Figure) (idx : nat) (w : World) :
  List.length (fst (render_cards figures idx w)) = List.length figures.
Proof.
  revert idx w. induction figures as [|fig figures IH]; intros idx w;
    [reflexivity|].
  cbn [render_cards]. destruct (uuid4 w) as [id w1].
  specialize (IH (S idx) w1).
  destruct (render_cards figures (S idx) w1) as [c v].
  cbn [fst List.length] in *. rewrite IH. reflexivity.
Qed.

(** Card [k] is the fragment of figure [k] with the id drawn for it; the
    plotly.js payload is asked for with the first figure only. *)
Lemma render_cards_cards (figures : list Figure) (idx : nat) (w : World) :
  fst (render_cards figures idx w)
    = map (fun p =>
             s2u "<section class='card'>"
               ++ to_html (fst p) (Nat.eqb (fst (snd p)) 0) (snd (snd p))
               ++ s2u "</section>")
          (combine figures
                   (combine (seq idx (List.length figures))
                            (draws (List.length figures) w))).
Proof.
  revert idx w. induction figures as [|fig figures IH]; intros idx w;
    [reflexivity|].
  cbn [List.length draws render_cards seq].
  destruct (uuid4 w) as [id w1]. specialize (IH (S idx) w1).
  destruct (render_cards figures (S idx) w1) as [c v].
  cbn [fst snd combine map] in *. rewrite IH. reflexivity.
Qed.

Lemma write_dashboard_draws (figures : list Figure) (title_ : pystr)
  (w1 w2 : World) :
  draws (List.length figures) w1 = draws (List.length figures) w2 ->
  fst (write_dashboard figures title_ w1) = fst (write_dashboard figures title_ w2).
Proof.
  intros H. unfold write_dashboard.
  pose proof (render_cards_draws figures 0 w1 w2 H) as Hc.
  destruct (render_cards figures 0 w1) as [c1 v1].
  destruct (render_cards figures 0 w2) as [c2 v2].
  cbn [fst] in *. rewrite Hc. reflexivity.
Qed.

(** Equal draws give equal runs. *)
Lemma same_ids_same_document (csv_path : Path) (output_path : option Path)
  (title_ : pystr) (header_row : Z) (w1 w2 : World) :
  draws (chart_count csv_path header_row) w1
    = draws (chart_count csv_path header_row) w2 ->
  outcome (generate_dashboard csv_path output_path title_ header_row w1)
    = outcome (generate_dashboard csv_path output_path title_ header_row w2).
Proof.
  unfold chart_count, generate_dashboard.
  destruct (load_csv csv_path header_row) as [e|df]; [reflexivity|].
  cbn [chart_columns]. rewrite length_map. intros H.
  pose proof (write_dashboard_draws (build_figures df) title_ w1 w2 H) as Hd.
  destruct (write_dashboard (build_figures df) title_ w1) as [d1 v1].
  destruct (write_dashboard (build_figures df) title_ w2) as [d2 v2].
  cbn [fst outcome] in *. rewrite Hd. reflexivity.
Qed.

End Rendering.

(** ** The sample libraries at work *)


Ltac sample_prepared raw df Hp :=
  destruct (@prepare Sample.libs raw) as [?e|df] eqn:Hp;
  [vm_compute in Hp; discriminate|].

Lemma no_dated_row_sample :
  @read_frame Sample.libs (inr Sample.undated) 2 = inr Sample.undated /\
  distinct_labels Sample.undated = true /\ aligned Sample.undated = true /\
  (exists df, @prepare Sample.libs Sample.undated = inr df /\ index df = []) /\
  @load_csv Sample.libs (inr Sample.undated) 2
    = inl (RuntimeError msg_no_columns).
Proof.
  assert (Hread : @read_frame Sample.libs (inr Sample.undated) 2
                  = inr Sample.undated) by reflexivity.
  assert (Hd : distinct_labels Sample.undated = true) by (vm_compute; reflexivity).
  assert (Ha : aligned Sample.undated = true) by (vm_compute; reflexivity).
  split; [exact Hread|]. split; [exact Hd|]. split; [exact Ha|].
  sample_prepared Sample.undated df Hp.
  assert (Hi : index df = []).
  { pose proof Hp as Hq. vm_compute in Hq. injection Hq as <-. reflexivity. }
  split; [exists df; split; [reflexivity | exact Hi]|].
  exact (@no_dated_row_fails_as_no_column Sample.libs (inr Sample.undated) 2
           Sample.undated df Hread Hd Ha Hp Hi).
Defined.

(** C1 as stated fails: with no date parsable the run raises what it
    raises for scenario B, where every row is dated and no column
    survives; the two failures are one. *)
Lemma undated_failure_is_no_column_failure :
  (exists df, @prepare Sample.libs Sample.undated = inr df /\ index df = []) /\
  @load_csv Sample.libs (inr Sample.undated) 2
    = inl (RuntimeError msg_no_columns) /\
  (exists df, @prepare Sample.libs Sample.scenario_b = inr df /\
              index df = [0; 1; 2]%nat) /\
  @load_csv Sample.libs (inr Sample.scenario_b) 2
    = inl (RuntimeError msg_no_columns).
Proof.
  split; [eexists; split; [vm_compute; reflexivity | reflexivity]|].
  split; [vm_compute; reflexivity|].
  split; [eexists; split; [vm_compute; reflexivity | reflexivity]|].
  vm_compute; reflexivity.
Qed.

Lemma chart_iff_positive_value_sample :
  @read_frame Sample.libs (inr Sample.annotated) 2 = inr Sample.annotated /\
  distinct_labels Sample.annotated = true /\
  exists df,
    @prepare Sample.libs Sample.annotated = inr df /\
    chart_columns (@load_csv Sample.libs (inr Sample.annotated) 2)
      = [s2u "Leistung (kW)"] /\
    forall c,
      In c (chart_columns (@load_csv Sample.libs (inr Sample.annotated) 2)) <->
      c <> Datum /\
      exists s, In (c, s) (columns df) /\
                exists v, In v (@_coerce_numeric Sample.libs s) /\
                          PrimFloat.ltb 0 v = true.
Proof.
  assert (Hread : @read_frame Sample.libs (inr Sample.annotated) 2
                  = inr Sample.annotated) by reflexivity.
  assert (Hwf : distinct_labels Sample.annotated = true)
    by (vm_compute; reflexivity).
  split; [exact Hread|]. split; [exact Hwf|].
  sample_prepared Sample.annotated df Hp.
  exists df. split; [reflexivity|].
  split; [vm_compute; reflexivity|].
  intros c.
  exact (@chart_iff_positive_value Sample.libs (inr Sample.annotated) 2
           Sample.annotated df c Hread Hwf Hp).
Defined.

Lemma scenario_b_fails_sample :
  @read_frame Sample.libs (inr Sample.scenario_b) 2 = inr Sample.scenario_b /\
  distinct_labels Sample.scenario_b = true /\
  @load_csv Sample.libs (inr Sample.scenario_b) 2
    = inl (RuntimeError msg_no_columns) /\
  exists df,
    @prepare Sample.libs Sample.scenario_b = inr df /\
    forall c s, In (c, s) (columns df) -> c <> Datum ->
      forall v, In v (@_coerce_numeric Sample.libs s) ->
        PrimFloat.ltb 0 v = false.
Proof.
  assert (Hread : @read_frame Sample.libs (inr Sample.scenario_b) 2
                  = inr Sample.scenario_b) by reflexivity.
  assert (Hwf : distinct_labels Sample.scenario_b = true)
    by (vm_compute; reflexivity).
  assert (Hload : @load_csv Sample.libs (inr Sample.scenario_b) 2
                  = inl (RuntimeError msg_no_columns))
    by (vm_compute; reflexivity).
  split; [exact Hread|]. split; [exact Hwf|]. split; [exact Hload|].
  sample_prepared Sample.scenario_b df Hp.
  exists df. split; [reflexivity|].
  destruct (@no_column_error_iff_none_survives Sample.libs
              (inr Sample.scenario_b) 2) as [_ H].
  destruct (H Sample.scenario_b df Hread Hwf Hp) as [[Hif _] _].
  exact (Hif Hload).
Defined.

Lemma unit_label_sample :
  ~ In lparen (s2u "Leistung ") /\ ~ In rparen (s2u "Leistung ") /\
  ~ In rparen (s2u "kW") /\ s2u "kW" <> [] /\
  y_label (s2u "Leistung (kW)") = s2u "kW".
Proof.
  assert (H1 : ~ In lparen (s2u "Leistung "))
    by (cbn; intros H; repeat (destruct H as [H|H]; [discriminate|]); exact H).
  assert (H2 : ~ In rparen (s2u "Leistung "))
    by (cbn; intros H; repeat (destruct H as [H|H]; [discriminate|]); exact H).
  assert (H3 : ~ In rparen (s2u "kW"))
    by (cbn; intros H; repeat (destruct H as [H|H]; [discriminate|]); exact H).
  assert (H4 : s2u "kW" <> []) by discriminate.
  repeat (split; [assumption|]).
  destruct (unit_label_from_first_parentheses (mkFrame [] [])) as [_ [H _]].
  exact (H (s2u "Leistung ") (s2u "kW") [] H1 H2 H3 H4).
Defined.

Lemma clean_cells_sample :
  clean_object_series
    [PyStr ([quote] ++ s2u " 12,5 " ++ [quote]); PyStr (s2u "  ");
     PyStr (s2u "0"); PyNaN]
    = [PyStr (s2u "12,5"); PdNA; PyStr (s2u "0"); PdNA].
Proof.
  rewrite (proj1 (clean_cells_delete_every_quote _)). reflexivity.
Defined.

(** * Further properties of the program *)

(** ** Failures of [load_csv] *)

Lemma update_first_names (l : pystr) (cols : list (pystr * Series)) :
  map fst (update_first l cols) = map fst cols.
Proof.
  induction cols as [|[n s] cols IH]; [reflexivity|].
  cbn [update_first]. destruct (str_eqb n l); cbn [map fst]; [reflexivity|].
  rewrite IH. reflexivity.
Qed.

Lemma update_fold_names (labels : list pystr) (cols : list (pystr * Series)) :
  map fst (fold_left (fun cs l => update_first l cs) labels cols) = map fst cols.
Proof.
  revert cols. induction labels as [|l labels IH]; intros cols; [reflexivity|].
  cbn [fold_left]. rewrite IH. apply update_first_names.
Qed.

Lemma clean_object_columns_names (df : DataFrame) :
  column_names (_clean_object_columns df) = column_names df /\
  index (_clean_object_columns df) = index df.
Proof.
  unfold _clean_object_columns. rewrite clean_fold_frame.
  unfold column_names. cbn [columns index].
  split; [apply update_fold_names | reflexivity].
Qed.

Lemma normalize_names_any (raw : DataFrame) :
  column_names (normalize raw) = map strip (column_names raw).
Proof.
  unfold normalize. rewrite drop_definition_rows_names.
  rewrite (proj1 (clean_object_columns_names _)).
  unfold column_names. cbn [columns]. rewrite !map_map. reflexivity.
Qed.

Section Failures.

Context {E : Externals}.

Lemma read_frame_cases (csv_path : Path) (header_row : Z) :
  read_frame csv_path header_row =
    match read_csv csv_path utf_8_sig (header_index header_row) with
    | inr df => inr df
    | inl _ =>
        match read_csv csv_path cp1252 (header_index header_row) with
        | inr df => inr df
        | inl e2 => inl (RuntimeError (msg_unreadable e2))
        end
    end.
Proof.
  unfold read_frame. cbn [read_loop].
  destruct (read_csv csv_path utf_8_sig (header_index header_row));
    [|reflexivity].
  destruct (read_csv csv_path cp1252 (header_index header_row)); reflexivity.
Qed.

(** X1: reading fails only when both encodings fail, and the message then
    carries the cause reported for the last one tried, cp1252; a file
    readable as utf-8-sig is taken as such, and cp1252 is the fallback. *)
Theorem read_failure_carries_last_cause (csv_path : Path) (header_row : Z) :
  (forall e,
     read_frame csv_path header_row = inl e <->
     exists e1 e2,
       read_csv csv_path utf_8_sig (header_index header_row) = inl e1 /\
       read_csv csv_path cp1252 (header_index header_row) = inl e2 /\
       e = RuntimeError (s2u "Konnte CSV nicht lesen: " ++ e2)) /\
  (forall df,
     read_csv csv_path utf_8_sig (header_index header_row) = inr df ->
     read_frame csv_path header_row = inr df) /\
  (forall e1 df,
     read_csv csv_path utf_8_sig (header_index header_row) = inl e1 ->
     read_csv csv_path cp1252 (header_index header_row) = inr df ->
     read_frame csv_path header_row = inr df).
Proof.
  rewrite read_frame_cases.
  destruct (read_csv csv_path utf_8_sig (header_index header_row)) as [e1|df1];
    destruct (read_csv csv_path cp1252 (header_index header_row)) as [e2|df2].
  - split; [|split; intros; discriminate].
    intros e. split.
    + intros H. inversion H. exists e1, e2. auto.
    + intros [x1 [x2 [H1 [H2 ->]]]]. inversion H2. reflexivity.
  - split; [|split].
    + intros e. split; [discriminate|].
      intros [x1 [x2 [_ [H2 _]]]]. discriminate.
    + intros df H. discriminate.
    + intros x1 df _ H. inversion H. reflexivity.
  - split; [|split].
    + intros e. split; [discriminate|].
      intros [x1 [x2 [H1 _]]]. discriminate.
    + intros df H. inversion H. reflexivity.
    + intros x1 df H. discriminate.
  - split; [|split].
    + intros e. split; [discriminate|].
      intros [x1 [x2 [H1 _]]]. discriminate.
    + intros df H. inversion H. reflexivity.
    + intros x1 df H. discriminate.
Qed.

Lemma read_frame_error (csv_path : Path) (header_row : Z) (e : exn) :
  read_frame csv_path header_row = inl e ->
  exists err, e = RuntimeError (msg_unreadable err).
Proof.
  rewrite read_frame_cases.
  destruct (read_csv csv_path utf_8_sig (header_index header_row)); [|discriminate].
  destruct (read_csv csv_path cp1252 (header_index header_row)) as [e2|];
    [|discriminate].
  intros H; inversion H. exists e2. reflexivity.
Qed.

Lemma prepare_cases (raw : DataFrame) :
  (~ In Datum (map strip (column_names raw)) /\
   prepare raw = inl (RuntimeError msg_no_datum)) \/
  (In Datum (map strip (column_names raw)) /\ exists df, prepare raw = inr df).
Proof.
  unfold prepare, parse_dates, has_column.
  rewrite normalize_names_any.
  destruct (existsb (str_eqb Datum) (map strip (column_names raw))) eqn:H;
    cbn [negb].
  - right. split; [apply existsb_str_eqb; exact H | eauto].
  - left. split; [|reflexivity].
    intros Hin. apply existsb_str_eqb in Hin. congruence.
Qed.

End Failures.

(** ** The frame [load_csv] returns *)

Lemma lookup_frame_take (mask : list bool) (cols : list (pystr * Series))
  (n : pystr) :
  lookup (map (fun c => (fst c, series_take mask (snd c))) cols) n
    = option_map (series_take mask) (lookup cols n).
Proof.
  induction cols as [|[k s] cols IH]; [reflexivity|].
  cbn [map lookup fst snd]. destruct (str_eqb k n); [reflexivity | exact IH].
Qed.

Lemma take_mask_present (l : list (option Z)) :
  exists stamps,
    take_mask (map negb (map (fun t : option Z => match t with
                                                  | Some _ => false
                                                  | None => true
                                                  end) l)) l
      = map Some stamps.
Proof.
  induction l as [|[z|] l [stamps IH]].
  - exists []. reflexivity.
  - exists (z :: stamps). cbn. rewrite IH. reflexivity.
  - exists stamps. cbn. exact IH.
Qed.

Lemma take_mask_sorted (mask : list bool) (l : list nat) :
  StronglySorted lt l -> StronglySorted lt (take_mask mask l).
Proof.
  revert l. induction mask as [|b mask IH]; intros [|x l] H;
    try (cbn; constructor).
  inversion H; subst. destruct b; cbn; [|apply IH; assumption].
  constructor; [apply IH; assumption|].
  rewrite Forall_forall in *. intros y Hy. apply H3.
  eapply take_mask_in; exact Hy.
Qed.

Lemma seq_sorted (a n : nat) : StronglySorted lt (seq a n).
Proof.
  revert a. induction n as [|n IH]; intros a; cbn; constructor; [apply IH|].
  apply Forall_forall. intros y Hy. apply in_seq in Hy. lia.
Qed.

Lemma distinct_filter (f : pystr -> bool) (names : list pystr) :
  distinct names = true -> distinct (filter f names) = true.
Proof.
  induction names as [|n names IH]; [reflexivity|].
  rewrite distinct_cons. intros [Hn Hd]. cbn [filter].
  destruct (f n); [|apply IH; exact Hd].
  apply distinct_cons. split; [|apply IH; exact Hd].
  intros Hin. apply filter_In in Hin. tauto.
Qed.

Section LoadedFrame.

Context {E : Externals}.

Lemma getitem_setitem (df : DataFrame) (col c : pystr) (s : Series) :
  getitem (setitem df col s) c
    = if str_eqb col c then Some s else getitem df c.
Proof.
  unfold getitem. cbn [setitem columns].
  destruct (str_eqb col c) eqn:H.
  - apply str_eqb_eq in H; subst c. apply lookup_assign_same.
  - apply lookup_assign_other; exact H.
Qed.

Lemma coerce_length (s : Series) :
  List.length (_coerce_numeric s) = series_len s.
Proof.
  destruct s; cbn [_coerce_numeric series_len]; rewrite ?length_map; reflexivity.
Qed.

(** After the loop a surviving column holds its coerced values and every
    other column is what it was. *)
Lemma numeric_loop_lookup (cols : list pystr) (df : DataFrame)
  (acc : list pystr) (c : pystr) :
  getitem (fst (numeric_loop cols df acc)) c
    = if existsb (str_eqb c) cols && survives df c
      then option_map (fun s => Numeric (_coerce_numeric s)) (getitem df c)
      else getitem df c.
Proof.
  revert df acc. induction cols as [|col cols IH]; intros df acc;
    [reflexivity|].
  cbn [numeric_loop existsb].
  assert (Hskip : survives df col = false ->
                  (str_eqb c col || existsb (str_eqb c) cols) && survives df c
                    = existsb (str_eqb c) cols && survives df c).
  { intros Hs. destruct (str_eqb c col) eqn:Hc; [|reflexivity].
    apply str_eqb_eq in Hc; subst c. rewrite Hs, !andb_false_r. reflexivity. }
  destruct (str_eqb col Datum) eqn:Hd.
  { rewrite IH, Hskip; [reflexivity|]. unfold survives. rewrite Hd. reflexivity. }
  destruct (getitem df col) as [s|] eqn:Hs.
  2:{ rewrite IH, Hskip; [reflexivity|]. unfold survives. rewrite Hs.
      apply andb_false_r. }
  destruct (any_positive (_coerce_numeric s)) eqn:Hp.
  2:{ rewrite IH, Hskip; [reflexivity|]. unfold survives. rewrite Hs, Hp.
      apply andb_false_r. }
  rewrite IH, survives_setitem by exact Hs. rewrite getitem_setitem.
  destruct (str_eqb col c) eqn:Hc.
  - apply str_eqb_eq in Hc; subst c. rewrite str_eqb_refl. cbn [orb].
    assert (Hsurv : survives df col = true).
    { unfold survives. rewrite Hd, Hs, Hp. reflexivity. }
    rewrite Hsurv, Hs, andb_true_r. cbn [andb option_map].
    destruct (existsb (str_eqb col) cols); reflexivity.
  - rewrite str_eqb_sym, Hc. reflexivity.
Qed.

Lemma numeric_loop_aligned (cols : list pystr) (df : DataFrame)
  (acc : list pystr) :
  aligned df = true -> aligned (fst (numeric_loop cols df acc)) = true.
Proof.
  revert df acc. induction cols as [|col cols IH]; intros df acc Ha;
    [exact Ha|].
  cbn [numeric_loop]. destruct (str_eqb col Datum); [apply IH; exact Ha|].
  destruct (getitem df col) as [s|] eqn:Hs; [|apply IH; exact Ha].
  destruct (any_positive (_coerce_numeric s)); [|apply IH; exact Ha].
  apply IH. apply aligned_setitem; [exact Ha|].
  cbn [series_len]. rewrite coerce_length.
  rewrite aligned_spec in Ha. apply (Ha (col, s)). apply lookup_in. exact Hs.
Qed.

Lemma select_columns_in (df : DataFrame) (names : list pystr) (c : pystr)
  (s : Series) :
  In (c, s) (columns (select_columns df names)) ->
  In c names /\ getitem df c = Some s.
Proof.
  cbn [select_columns columns]. rewrite in_flat_map.
  intros [n [Hn Hin]]. destruct (getitem df n) as [s0|] eqn:Hs; [|destruct Hin].
  destruct Hin as [Heq|[]]. inversion Heq; subst. auto.
Qed.

(** What [select_numeric] hands back, column by column. *)
Lemma select_numeric_output (df out : DataFrame) :
  select_numeric df = inr out ->
  index out = index df /\
  (aligned df = true -> aligned out = true) /\
  (forall c s, In (c, s) (columns out) ->
     (c = Datum /\ getitem df Datum = Some s) \/
     (survives df c = true /\
      exists s0, getitem df c = Some s0 /\ s = Numeric (_coerce_numeric s0))).
Proof.
  intros Hsel. split; [apply select_numeric_index; exact Hsel|].
  unfold select_numeric in Hsel.
  pose proof (numeric_loop_lookup (column_names df) df []) as Hlook.
  pose proof (numeric_loop_aligned (column_names df) df []) as Hal.
  destruct (numeric_loop_spec (column_names df) df []) as [H1 [H2 _]].
  destruct (numeric_loop (column_names df) df []) as [df' nc].
  cbn [fst snd app] in *.
  destruct nc as [|n nc]; [discriminate|]. inversion Hsel; subst out; clear Hsel.
  split.
  - intros Ha. specialize (Hal Ha). rewrite aligned_spec in *.
    intros [c s] Hc. cbn [select_columns index snd].
    apply select_columns_in in Hc. destruct Hc as [_ Hc].
    apply lookup_in in Hc. apply (Hal (c, s)). exact Hc.
  - intros c s Hc. apply select_columns_in in Hc. destruct Hc as [Hin Hget].
    rewrite Hlook in Hget. destruct Hin as [<-|Hin].
    + left. split; [reflexivity|].
      replace (survives df Datum) with false in Hget
        by (unfold survives; rewrite str_eqb_refl; reflexivity).
      rewrite andb_false_r in Hget. exact Hget.
    + right. rewrite H1 in Hin. apply filter_In in Hin.
      destruct Hin as [Hnames Hsurv]. split; [exact Hsurv|].
      rewrite Hsurv, andb_true_r in Hget.
      replace (existsb (str_eqb c) (column_names df)) with true in Hget
        by (symmetry; apply existsb_str_eqb; exact Hnames).
      destruct (getitem df c) as [s0|]; [|discriminate].
      inversion Hget. exists s0. auto.
Qed.

(** Once the dates are parsed the date column holds stamps only. *)
Lemma prepare_datum (raw df : DataFrame) :
  prepare raw = inr df ->
  has_column df Datum = true /\
  exists stamps, getitem df Datum = Some (Datetime (map Some stamps)).
Proof.
  unfold prepare. intros Hp.
  destruct (parse_dates_facts _ Hp) as [_ [_ Hnames]].
  unfold parse_dates in Hp.
  destruct (has_column (normalize raw) Datum) eqn:Hhas; cbn [negb] in Hp;
    [|discriminate].
  split; [unfold has_column in *; rewrite Hnames; exact Hhas|].
  destruct (lookup_names (columns (normalize raw)) Datum) as [s Hs].
  { apply existsb_str_eqb. exact Hhas. }
  fold (getitem (normalize raw) Datum) in Hs. rewrite Hs in Hp.
  inversion Hp; subst df; clear Hp.
  unfold dropna_datum. rewrite getitem_setitem, str_eqb_refl.
  unfold getitem. cbn [frame_take columns].
  rewrite lookup_frame_take.
  fold (getitem (setitem (normalize raw) Datum (pd_to_datetime s)) Datum).
  rewrite getitem_setitem, str_eqb_refl.
  unfold pd_to_datetime. cbn [option_map series_take isna].
  destruct (take_mask_present
              (map (to_datetime_at s) (seq 0 (series_len s)))) as [stamps Hst].
  exists stamps. rewrite Hst. reflexivity.
Qed.

Lemma load_csv_prepared (csv_path : Path) (header_row : Z) (raw out : DataFrame) :
  read_frame csv_path header_row = inr raw ->
  load_csv csv_path header_row = inr out ->
  exists df, prepare raw = inr df /\ select_numeric df = inr out.
Proof.
  unfold load_csv, process. intros ->.
  destruct (prepare raw) as [e|df]; [discriminate|]. eauto.
Qed.

Lemma load_csv_output_columns (csv_path : Path) (header_row : Z)
  (raw out : DataFrame) :
  read_frame csv_path header_row = inr raw ->
  load_csv csv_path header_row = inr out ->
  exists df stamps,
    prepare raw = inr df /\
    getitem out Datum = Some (Datetime (map Some stamps)) /\
    forall c s, In (c, s) (columns out) -> c <> Datum ->
      exists s0, getitem df c = Some s0 /\ s = Numeric (_coerce_numeric s0) /\
                 any_positive (_coerce_numeric s0) = true.
Proof.
  intros Hread Hload.
  destruct (load_csv_prepared _ _ Hread Hload) as [df [Hp Hsel]].
  destruct (prepare_datum raw Hp) as [Hhas [stamps Hst]].
  destruct (select_numeric_output df Hsel) as [_ [_ Hcols]].
  destruct (select_numeric_columns df Hhas Hsel) as [_ [sd Hsd]].
  exists df, stamps. split; [exact Hp|]. split.
  - rewrite Hsd. f_equal.
    apply lookup_in in Hsd. destruct (Hcols _ _ Hsd) as [[_ H]|[Hs _]].
    + rewrite Hst in H. inversion H. reflexivity.
    + apply survives_not_datum in Hs. rewrite str_eqb_refl in Hs. discriminate.
  - intros c s Hin Hne. destruct (Hcols c s Hin) as [[H _]|[Hs [s0 [H0 ->]]]];
      [contradiction|].
    exists s0. split; [exact H0|]. split; [reflexivity|].
    unfold survives in Hs. rewrite H0 in Hs.
    apply andb_true_iff in Hs. tauto.
Qed.

(** X5: in the frame returned the date column is a datetime column
    without a missing stamp, and every other column is numeric, holds the
    coerced values of the column it was made from, and has a value above
    zero. *)
Theorem loaded_columns_typed (csv_path : Path) (header_row : Z)
  (raw out : DataFrame) :
  read_frame csv_path header_row = inr raw ->
  load_csv csv_path header_row = inr out ->
  (exists stamps, getitem out Datum = Some (Datetime (map Some stamps))) /\
  (forall c s, In (c, s) (columns out) -> c <> Datum ->
     exists v, s = Numeric v /\ any_positive v = true) /\
  (exists df, prepare raw = inr df /\
     forall c s, In (c, s) (columns out) -> c <> Datum ->
       exists s0, getitem df c = Some s0 /\ s = Numeric (_coerce_numeric s0)).
Proof.
  intros Hread Hload.
  destruct (load_csv_output_columns _ _ Hread Hload)
    as [df [stamps [Hp [Hst Hcols]]]].
  split; [exists stamps; exact Hst|]. split.
  - intros c s Hin Hne. destruct (Hcols c s Hin Hne) as [s0 [_ [-> Hpos]]].
    exists (_coerce_numeric s0). auto.
  - exists df. split; [exact Hp|].
    intros c s Hin Hne. destruct (Hcols c s Hin Hne) as [s0 [H0 [Hs _]]].
    exists s0. auto.
Qed.

(** X6: rows are only ever removed and never reordered: the index of the
    frame returned is an increasing selection of the row numbers read,
    and every column returned is exactly as long as that index. *)
Theorem loaded_rows_in_order (csv_path : Path) (header_row : Z)
  (raw out : DataFrame) :
  read_frame csv_path header_row = inr raw ->
  well_formed raw = true ->
  load_csv csv_path header_row = inr out ->
  aligned out = true /\
  StronglySorted lt (index out) /\
  (forall i, In i (index out) -> i < List.length (index raw)).
Proof.
  intros Hread Hwf Hload.
  destruct (load_csv_prepared _ _ Hread Hload) as [df [Hp Hsel]].
  destruct (select_numeric_output df Hsel) as [Hidx [Hal _]].
  apply well_formed_spec in Hwf. destruct Hwf as [Hd [Hr Ha]].
  apply range_seq in Hr.
  split; [apply Hal; exact (prepare_aligned raw Hd Ha Hp)|].
  rewrite Hidx. unfold prepare, parse_dates in Hp.
  destruct (has_column (normalize raw) Datum); cbn [negb] in Hp; [|discriminate].
  inversion Hp; subst df; clear Hp.
  assert (Hnorm : StronglySorted lt (index (normalize raw)) /\
                  forall i, In i (index (normalize raw)) ->
                            i < List.length (index raw)).
  { unfold normalize. split.
    - unfold drop_definition_rows.
      destruct (existsb _ _); cbn [frame_take index];
        rewrite (proj2 (clean_object_columns_names _)); cbn [index];
        [apply take_mask_sorted|]; rewrite Hr; apply seq_sorted.
    - intros i Hi. apply drop_definition_rows_index in Hi.
      rewrite (proj2 (clean_object_columns_names _)) in Hi. cbn [index] in Hi.
      rewrite Hr in Hi. apply in_seq in Hi. lia. }
  destruct Hnorm as [Hs Hlt].
  set (df2 := match getitem (normalize raw) Datum with
              | Some s => setitem (normalize raw) Datum (pd_to_datetime s)
              | None => normalize raw
              end).
  assert (H2 : index df2 = index (normalize raw)).
  { unfold df2. destruct (getitem (normalize raw) Datum); reflexivity. }
  unfold dropna_datum. destruct (getitem df2 Datum); cbn [frame_take index];
    rewrite H2.
  - split; [apply take_mask_sorted; exact Hs|].
    intros i Hi. apply Hlt. eapply take_mask_in; exact Hi.
  - split; [exact Hs | exact Hlt].
Qed.

(** X7: every chart built from the frame returned plots a numeric column
    against the date column, point for point: the x values are stamps
    without a gap, the y values are as many, one of them is above zero,
    and there is at least one chart. *)
Theorem figures_of_loaded_frame (csv_path : Path) (header_row : Z)
  (raw out : DataFrame) :
  read_frame csv_path header_row = inr raw ->
  distinct_labels raw = true -> aligned raw = true ->
  load_csv csv_path header_row = inr out ->
  build_figures out <> [] /\
  exists stamps,
    forall fig, In fig (build_figures out) ->
      trace_x fig = Datetime (map Some stamps) /\
      exists v, trace_y fig = Numeric v /\
                List.length v = List.length stamps /\
                any_positive v = true.
Proof.
  intros Hread Hd Ha Hload.
  destruct (load_csv_output_columns _ _ Hread Hload)
    as [df [stamps [Hp [Hst Hcols]]]].
  assert (Hsel : select_numeric df = inr out).
  { destruct (load_csv_prepared _ _ Hread Hload) as [df0 [Hp0 Hsel]].
    rewrite Hp in Hp0. inversion Hp0; subst df0. exact Hsel. }
  destruct (prepare_datum raw Hp) as [Hhas _].
  destruct (select_numeric_columns df Hhas Hsel) as [Hnames _].
  destruct (select_numeric_output df Hsel) as [_ [Hal _]].
  specialize (Hal (prepare_aligned raw Hd Ha Hp)). rewrite aligned_spec in Hal.
  split.
  - intros Hnil. apply (f_equal (map title)) in Hnil.
    rewrite build_figures_titles, Hnames in Hnil. cbn [filter map] in Hnil.
    rewrite str_eqb_refl in Hnil. cbn [negb] in Hnil.
    destruct (filter (survives df) (column_names df)) as [|c l] eqn:Hf.
    + apply select_numeric_fails in Hf. rewrite Hf in Hsel. discriminate.
    + assert (Hc : In c (filter (survives df) (column_names df)))
        by (rewrite Hf; left; reflexivity).
      apply filter_In in Hc. destruct Hc as [_ Hc].
      apply survives_not_datum in Hc. cbn [filter] in Hnil.
      rewrite Hc in Hnil. discriminate.
  - exists stamps. intros fig Hfig. unfold build_figures in Hfig.
    apply in_map_iff in Hfig. destruct Hfig as [col [<- Hcol]].
    cbn [trace_x trace_y]. rewrite Hst.
    split; [reflexivity|].
    apply filter_In in Hcol. destruct Hcol as [Hin Hne].
    apply negb_true_iff, str_eqb_neq in Hne.
    destruct (lookup_names _ _ Hin) as [s Hs].
    fold (getitem out col) in Hs. rewrite Hs.
    apply lookup_in in Hs.
    destruct (Hcols col s Hs Hne) as [s0 [_ [-> Hpos]]].
    exists (_coerce_numeric s0). split; [reflexivity|]. split; [|exact Hpos].
    pose proof (Hal _ Hs) as Hlen. cbn [snd series_len] in Hlen.
    apply lookup_in in Hst. pose proof (Hal _ Hst) as Hlen2.
    cbn [snd series_len] in Hlen2. rewrite length_map in Hlen2. lia.
Qed.

End LoadedFrame.

(** ** Escaping and the cards of the document *)

Lemma flat_map_flat_map (A B C : Type) (f : A -> list B) (g : B -> list C)
  (l : list A) :
  flat_map g (flat_map f l) = flat_map (fun x => flat_map g (f x)) l.
Proof.
  induction l as [|x l IH]; [reflexivity|].
  cbn [flat_map]. rewrite flat_map_app, IH. reflexivity.
Qed.

Lemma escape_chain (x : char) :
  flat_map (fun c => if (c =? 39)%N then s2u "&#x27;" else [c])
    (flat_map (fun c => if (c =? 34)%N then s2u "&quot;" else [c])
       (flat_map (fun c => if (c =? 62)%N then s2u "&gt;" else [c])
          (flat_map (fun c => if (c =? 60)%N then s2u "&lt;" else [c])
             (if (x =? 38)%N then s2u "&amp;" else [x]))))
    = escape_char x.
Proof.
  unfold escape_char.
  destruct (x =? 38)%N eqn:H1; [reflexivity|]. cbn [flat_map app].
  destruct (x =? 60)%N eqn:H2; [reflexivity|]. cbn [flat_map app].
  destruct (x =? 62)%N eqn:H3; [reflexivity|]. cbn [flat_map app].
  destruct (x =? 34)%N eqn:H4; [reflexivity|]. cbn [flat_map app].
  destruct (x =? 39)%N eqn:H5; reflexivity.
Qed.

Lemma html_escape_chars (s : pystr) : html_escape s = flat_map escape_char s.
Proof.
  unfold html_escape.
  change (s2u "&") with [38%N]. change (s2u "<") with [60%N].
  change (s2u ">") with [62%N]. change (s2u "'") with [39%N].
  rewrite !replace_char, !flat_map_flat_map.
  apply flat_map_ext. intros x. rewrite <- escape_chain.
  rewrite !flat_map_flat_map. reflexivity.
Qed.

Lemma escape_char_safe (c x : char) :
  In x (escape_char c) ->
  x <> 60%N /\ x <> 62%N /\ x <> 34%N /\ x <> 39%N.
Proof.
  unfold escape_char.
  destruct (c =? 38)%N eqn:H1;
    [cbn; intros H; repeat (destruct H as [<-|H]; [repeat split; discriminate|]);
     destruct H|].
  destruct (c =? 60)%N eqn:H2;
    [cbn; intros H; repeat (destruct H as [<-|H]; [repeat split; discriminate|]);
     destruct H|].
  destruct (c =? 62)%N eqn:H3;
    [cbn; intros H; repeat (destruct H as [<-|H]; [repeat split; discriminate|]);
     destruct H|].
  destruct (c =? 34)%N eqn:H4;
    [cbn; intros H; repeat (destruct H as [<-|H]; [repeat split; discriminate|]);
     destruct H|].
  destruct (c =? 39)%N eqn:H5;
    [cbn; intros H; repeat (destruct H as [<-|H]; [repeat split; discriminate|]);
     destruct H|].
  intros [<-|[]]. apply N.eqb_neq in H2, H3, H4, H5. auto.
Qed.

(** The five replacements of [html.escape] amount to escaping each
    character by itself, once. *)
Lemma html_escape_characterwise (s : pystr) :
  html_escape s = flat_map escape_char s /\
  (forall x, In x (html_escape s) ->
     x <> 60%N /\ x <> 62%N /\ x <> 34%N /\ x <> 39%N) /\
  (forallb (fun c => negb (html_special c)) s = true -> html_escape s = s) /\
  (forall t, html_escape (s ++ t) = html_escape s ++ html_escape t) /\
  html_escape (s2u "<a&b>") = s2u "&lt;a&amp;b&gt;".
Proof.
  split; [apply html_escape_chars|].
  split; [|split; [|split; [|reflexivity]]].
  - intros x. rewrite html_escape_chars, in_flat_map.
    intros [c [_ Hx]]. exact (escape_char_safe c x Hx).
  - rewrite html_escape_chars. induction s as [|c s IH]; [reflexivity|].
    cbn [forallb flat_map]. rewrite andb_true_iff, negb_true_iff.
    intros [Hc Hs]. rewrite IH by exact Hs.
    unfold html_special in Hc. rewrite !orb_false_iff in Hc.
    destruct Hc as [[[[H1 H2] H3] H4] H5].
    unfold escape_char. rewrite H1, H2, H3, H4, H5. reflexivity.
  - intros t. rewrite !html_escape_chars. apply flat_map_app.
Qed.

Section Cards.

Context {E : Externals}.

Lemma render_cards_later (figures : list Figure) (idx : nat) (w : World) :
  fst (render_cards figures (S idx) w)
    = map (fun p => card (fst p) false (snd p))
          (combine figures (draws (List.length figures) w)) /\
  snd (render_cards figures (S idx) w) = after_draws (List.length figures) w.
Proof.
  revert idx w. induction figures as [|fig figures IH]; intros idx w;
    [split; reflexivity|].
  cbn [List.length draws render_cards after_draws].
  destruct (uuid4 w) as [id w1]. destruct (IH (S idx) w1) as [H1 H2].
  destruct (render_cards figures (S (S idx)) w1) as [c v].
  cbn [fst snd combine map] in *. rewrite H1, H2. split; reflexivity.
Qed.

(** X9: the document holds one card per figure, in order, each rendered
    with the id drawn for it; plotly.js is asked to be inlined with the
    first card and with no other; and the random source is left as it is
    after one draw per figure. *)
Theorem dashboard_cards (figures : list Figure) (title_ : pystr) (w : World) :
  fst (write_dashboard figures title_ w)
    = html_doc title_
        match figures, draws (List.length figures) w with
        | fig :: rest, div_id :: ids =>
            card fig true div_id
              :: map (fun p => card (fst p) false (snd p)) (combine rest ids)
        | _, _ => []
        end /\
  snd (write_dashboard figures title_ w) = after_draws (List.length figures) w /\
  List.length (draws (List.length figures) w) = List.length figures.
Proof.
  split; [|split].
  - unfold write_dashboard. destruct figures as [|fig rest]; [reflexivity|].
    cbn [render_cards List.length draws].
    destruct (uuid4 w) as [id w1].
    destruct (render_cards_later rest 0 w1) as [H1 _].
    destruct (render_cards rest 1 w1) as [c v]. cbn [fst] in *.
    rewrite H1. reflexivity.
  - unfold write_dashboard. destruct figures as [|fig rest]; [reflexivity|].
    cbn [render_cards List.length after_draws].
    destruct (uuid4 w) as [id w1].
    destruct (render_cards_later rest 0 w1) as [_ H2].
    destruct (render_cards rest 1 w1) as [c v]. cbn [fst snd] in *.
    exact H2.
  - revert w. induction figures as [|fig rest IH]; intros w; [reflexivity|].
    cbn [List.length draws]. destruct (uuid4 w) as [id w1].
    cbn [List.length]. rewrite IH. reflexivity.
Qed.


End Cards.

(** ** Cleaning, once more *)

Lemma strip_fixed (t : pystr) :
  (forall c r, t = c :: r -> isspace c = false) ->
  (forall r c, t = r ++ [c] -> isspace c = false) ->
  strip t = t.
Proof.
  intros Hfirst Hlast. unfold strip, rstrip.
  assert (Hl : lstrip t = t).
  { destruct t as [|c r]; [reflexivity|].
    apply lstrip_fixed. exact (Hfirst c r eq_refl). }
  rewrite Hl.
  assert (Hr : lstrip (rev t) = rev t).
  { destruct (rev t) as [|d r'] eqn:Hrev; [reflexivity|].
    apply lstrip_fixed. apply (Hlast (rev r') d).
    rewrite <- (rev_involutive t), Hrev. reflexivity. }
  rewrite Hr. apply rev_involutive.
Qed.

Lemma clean_text_idem (s : pystr) : clean_text (clean_text s) = clean_text s.
Proof.
  set (t := clean_text s). unfold clean_text at 1.
  assert (Hmap : map ws_to_space t = t).
  { rewrite <- (map_id t) at 2. apply map_ext_in. intros x Hx.
    destruct (clean_text_chars s x Hx) as [_ [H1 [H2 H3]]].
    unfold ws_to_space. apply N.eqb_neq in H1, H2, H3.
    rewrite H1, H2, H3. reflexivity. }
  assert (Hfil : filter not_quote t = t).
  { apply filter_all. intros x Hx.
    destruct (clean_text_chars s x Hx) as [Hq _].
    unfold not_quote. apply negb_true_iff, N.eqb_neq. exact Hq. }
  rewrite Hmap, Hfil. apply strip_fixed.
  - intros c r Heq. exact (@strip_first _ r c Heq).
  - intros r c Heq. exact (@strip_last _ r c Heq).
Qed.

Lemma clean_cell_idem (o : obj) : clean_cell (clean_cell o) = clean_cell o.
Proof.
  destruct o as [s| |]; try reflexivity. cbn [clean_cell].
  destruct (clean_text s) as [|c r] eqn:Ht; [reflexivity|].
  cbn [clean_cell]. rewrite <- Ht, clean_text_idem, Ht. reflexivity.
Qed.

(** X10: cleaning is idempotent: a text, a cell or a whole column that
    went through [_clean_object_columns] once comes out of a second pass
    unchanged, and a cleaned column never holds an empty text: a text
    that cleans to nothing is a missing value. *)
Theorem cleaning_is_idempotent (series : list obj) :
  clean_object_series (clean_object_series series) = clean_object_series series /\
  (forall s, clean_text (clean_text s) = clean_text s) /\
  (forall o, clean_cell (clean_cell o) = clean_cell o) /\
  ~ In (PyStr []) (clean_object_series series) /\
  (forall o, In o (clean_object_series series) -> isna_obj o = false ->
     exists c r, o = PyStr (c :: r) /\ clean_text (c :: r) = c :: r).
Proof.
  split; [|split; [exact clean_text_idem|split; [exact clean_cell_idem|]]].
  - rewrite !clean_object_series_cells, map_map.
    apply map_ext. exact clean_cell_idem.
  - rewrite clean_object_series_cells. split.
    + intros H. apply in_map_iff in H. destruct H as [o [Ho _]].
      destruct o as [s| |]; cbn [clean_cell] in Ho; try discriminate.
      destruct (clean_text s); discriminate.
    + intros o Ho Hna. apply in_map_iff in Ho. destruct Ho as [o0 [<- _]].
      destruct o0 as [s| |]; cbn [clean_cell] in *; try discriminate.
      destruct (clean_text s) as [|c r] eqn:Ht; [discriminate|].
      exists c, r. split; [reflexivity|].
      rewrite <- Ht. apply clean_text_idem.
Qed.

(** X12: on a frame with distinct labels [_clean_object_columns] cleans
    each cell of each object column by itself and leaves the index, the
    labels, their order and every other column as they were; a second
    pass changes nothing. *)
Theorem clean_object_columns_cellwise (df : DataFrame) :
  distinct (column_names df) = true ->
  _clean_object_columns df
    = mkFrame (index df)
              (map (fun c => (fst c, clean_cells (snd c))) (columns df)) /\
  _clean_object_columns (_clean_object_columns df) = _clean_object_columns df.
Proof.
  intros Hd.
  assert (Hcells : forall s, clean_series s = clean_cells s).
  { intros [v|v|v]; try reflexivity. cbn [clean_series clean_cells].
    rewrite clean_object_series_cells. reflexivity. }
  assert (H1 : _clean_object_columns df
               = mkFrame (index df)
                   (map (fun c => (fst c, clean_cells (snd c))) (columns df))).
  { rewrite clean_object_columns_frame by exact Hd. f_equal.
    apply map_ext. intros c. rewrite Hcells. reflexivity. }
  split; [exact H1|].
  rewrite clean_object_columns_frame
    by (rewrite (proj1 (clean_object_columns_names df)); exact Hd).
  rewrite H1. cbn [index columns]. f_equal. rewrite map_map.
  apply map_ext. intros [n s]. cbn [fst snd]. f_equal.
  destruct s as [v|v|v]; try reflexivity. cbn [clean_cells clean_series].
  rewrite clean_object_series_cells, map_map. f_equal.
  apply map_ext. exact clean_cell_idem.
Qed.

(** ** Annotation rows, exactly *)

Lemma take_mask_seq_iff (mask : list bool) (a n i : nat) :
  In i (take_mask mask (seq a n)) <->
  a <= i < a + n /\ nth (i - a) mask false = true.
Proof.
  split.
  - intros H. split; [|apply (take_mask_seq _ _ _ _ H)].
    apply take_mask_in, in_seq in H. exact H.
  - revert a n. induction mask as [|b mask IH]; intros a n [Hi Hb].
    + destruct (i - a); discriminate.
    + destruct n as [|n]; [lia|]. cbn [seq take_mask].
      destruct (Nat.eq_dec i a) as [->|Hne].
      * rewrite Nat.sub_diag in Hb. cbn in Hb. subst b. left; reflexivity.
      * assert (Hin : In i (take_mask mask (seq (S a) n))).
        { apply IH. split; [lia|].
          replace (i - a) with (S (i - S a)) in Hb by lia. exact Hb. }
        destruct b; [right|]; exact Hin.
Qed.

Lemma mask_all_false (m : list (list bool)) (mask : list bool) (i : nat) :
  existsb (fun b : bool => b) (any_axis0 m) = false ->
  In mask m -> nth i mask false = false.
Proof.
  intros Hany Hin. destruct (nth i mask false) eqn:Hb; [|reflexivity].
  apply nth_true_in in Hb.
  assert (H : existsb (fun b : bool => b) (any_axis0 m) = true); [|congruence].
  apply existsb_exists. exists true. split; [|reflexivity].
  unfold any_axis0. apply in_map_iff. exists mask. auto.
Qed.

Lemma drop_definition_rows_exactly (df : DataFrame) (i : nat) :
  range_indexed df = true ->
  (In i (index (drop_definition_rows df)) <->
   In i (index df) /\
   forall c, In c (columns df) -> nth i (marker_mask (snd c)) false = false).
Proof.
  intros Hr. apply range_seq in Hr. unfold drop_definition_rows.
  destruct (existsb (fun b : bool => b) (any_axis0 (definition_mask df))) eqn:Hany.
  - cbn [frame_take index]. set (n := List.length (index df)) in *.
    rewrite Hr, take_mask_seq_iff, in_seq, Nat.sub_0_r.
    assert (Hbit : 0 <= i < 0 + n ->
              (nth i (map negb (any_axis1 n (definition_mask df))) false = true <->
               forall c, In c (columns df) ->
                         nth i (marker_mask (snd c)) false = false)).
    { intros Hi.
      rewrite (nth_indep _ false (negb true))
        by (unfold any_axis1; rewrite !length_map, length_seq; lia).
      rewrite map_nth.
      rewrite (nth_indep _ true false)
        by (unfold any_axis1; rewrite !length_map, length_seq; lia).
      rewrite any_axis1_nth by lia. rewrite negb_true_iff.
      split.
      - intros Hex c Hc.
        destruct (nth i (marker_mask (snd c)) false) eqn:Hb; [|reflexivity].
        assert (H : existsb (fun col => nth i col false) (definition_mask df)
                    = true); [|congruence].
        apply existsb_exists. exists (marker_mask (snd c)).
        split; [|exact Hb]. unfold definition_mask.
        apply (in_map (fun c => marker_mask (snd c))). exact Hc.
      - intros Hall.
        destruct (existsb (fun col => nth i col false) (definition_mask df))
          eqn:Hex; [|reflexivity].
        apply existsb_exists in Hex. destruct Hex as [mask [Hm Hb]].
        unfold definition_mask in Hm. apply in_map_iff in Hm.
        destruct Hm as [c [<- Hc]]. rewrite (Hall c Hc) in Hb. discriminate. }
    split; intros [Hi Hb]; (split; [exact Hi|]); apply (Hbit Hi); exact Hb.
  - split; [|tauto]. intros Hi. split; [exact Hi|].
    intros c Hc. apply (mask_all_false (definition_mask df)); [exact Hany|].
    unfold definition_mask. apply (in_map (fun c => marker_mask (snd c))).
    exact Hc.
Qed.

Lemma marker_bit_cell (s : Series) (i : nat) :
  nth i (marker_mask (clean_series s)) false = true <->
  exists text, cell_text s i = Some text /\
               contains marker (clean_text text) = true.
Proof.
  destruct s as [v|v|v]; cbn [clean_series marker_mask cell_text].
  - split; [|intros [text [H _]]; discriminate].
    intros H. exfalso. revert i H.
    induction v as [|x v IH]; intros [|i]; cbn; try discriminate. apply IH.
  - rewrite clean_object_series_cells, map_map.
    destruct (nth_error v i) as [o|] eqn:Hn.
    + rewrite (nth_map_error _ _ _ false Hn).
      destruct o as [t| |]; cbn [clean_cell].
      * destruct (clean_text t) as [|c r] eqn:Ht; cbn [obj_str].
        -- split; [discriminate|]. intros [text [H1 H2]].
           inversion H1; subst text. rewrite Ht in H2. discriminate.
        -- rewrite <- Ht. split.
           ++ intros H. exists t. auto.
           ++ intros [text [H1 H2]]. inversion H1; subst text. exact H2.
      * split; [discriminate | intros [text [H _]]; discriminate].
      * split; [discriminate | intros [text [H _]]; discriminate].
    + rewrite nth_overflow
        by (rewrite length_map; apply nth_error_None; exact Hn).
      split; [discriminate | intros [text [H _]]; discriminate].
  - split; [|intros [text [H _]]; discriminate].
    intros H. exfalso. revert i H.
    induction v as [|x v IH]; intros [|i]; cbn; try discriminate. apply IH.
Qed.

(** X13: annotation-row removal drops a row exactly when one of its
    text cells, once cleaned, contains "Definition:"; every other row
    read is still there afterwards. *)
Theorem annotation_rows_exactly (raw : DataFrame) (i : nat) :
  well_formed raw = true ->
  (In i (index (normalize raw)) <->
   i < List.length (index raw) /\
   forall c s text,
     In (c, s) (columns raw) -> cell_text s i = Some text ->
     contains marker (clean_text text) = false).
Proof.
  intros Hwf. apply well_formed_spec in Hwf. destruct Hwf as [Hd [Hr _]].
  rewrite normalize_frame by exact Hd.
  rewrite drop_definition_rows_exactly by exact Hr.
  cbn [index columns]. pose proof (range_seq _ _ Hr) as Hseq.
  assert (Hidx : In i (index raw) <-> i < List.length (index raw)).
  { rewrite Hseq at 1. rewrite in_seq. lia. }
  rewrite Hidx. split; intros [Hi Hall]; (split; [exact Hi|]).
  - intros c s text Hc Ht.
    destruct (contains marker (clean_text text)) eqn:Hm; [|reflexivity].
    assert (Hbit : nth i (marker_mask (clean_series s)) false = true).
    { apply marker_bit_cell. exists text. auto. }
    rewrite <- Hbit.
    apply (Hall (strip c, clean_series s)).
    apply (in_map (fun c => (strip (fst c), clean_series (snd c))) _ (c, s)).
    exact Hc.
  - intros c Hc. apply in_map_iff in Hc. destruct Hc as [[n s] [<- Hc]].
    cbn [fst snd].
    destruct (nth i (marker_mask (clean_series s)) false) eqn:Hb; [|reflexivity].
    apply marker_bit_cell in Hb. destruct Hb as [text [Ht Hm]].
    rewrite (Hall n s text Hc Ht) in Hm. discriminate.
Qed.

(** ** Unit labels, for every name *)

Lemma in_split_first (c : char) (s : pystr) :
  In c s -> exists pre post, s = pre ++ c :: post /\ ~ In c pre.
Proof.
  induction s as [|x s IH]; [intros []|].
  destruct (N.eq_dec x c) as [->|Hne].
  - intros _. exists [], s. split; [reflexivity | intros []].
  - intros [H|H]; [contradiction|].
    destruct (IH H) as [pre [post [-> Hpre]]].
    exists (x :: pre), post. split; [reflexivity|].
    intros [Hx|Hx]; [contradiction | exact (Hpre Hx)].
Qed.

Lemma infer_units_shape (name : pystr) :
  infer_units name = [] \/
  exists pre post,
    name = pre ++ [lparen] ++ infer_units name ++ [rparen] ++ post /\
    ~ In lparen pre /\ ~ In rparen pre /\ ~ In rparen (infer_units name).
Proof.
  destruct (in_dec N.eq_dec rparen name) as [Hr|Hr];
    [|left; apply infer_units_no_rparen; exact Hr].
  destruct (in_split_first _ _ Hr) as [a [b [Hname Ha]]].
  destruct (in_dec N.eq_dec lparen a) as [Hl|Hl].
  - destruct (in_split_first _ _ Hl) as [pre [u [Hau Hpre]]].
    assert (Hpr : ~ In rparen pre).
    { intros H. apply Ha. rewrite Hau. apply in_or_app. left; exact H. }
    assert (Hur : ~ In rparen u).
    { intros H. apply Ha. rewrite Hau. apply in_or_app. right. right; exact H. }
    assert (Heq : name = pre ++ [lparen] ++ u ++ [rparen] ++ b).
    { rewrite Hname, Hau, <- app_assoc. reflexivity. }
    assert (Hu : infer_units name = u).
    { rewrite Heq. apply infer_units_between; assumption. }
    right. exists pre, b. rewrite Hu. auto.
  - left. rewrite Hname.
    apply (infer_units_rparen_first a b Hl Ha).
Qed.

(** X11: for every column name the unit read off it is either empty or
    the text between the first opening parenthesis and the first closing
    one after it, so it never holds a closing parenthesis; and the y-axis
    label of a chart is never empty: it is that unit or else "Wert". *)
Theorem unit_label_never_empty (name : pystr) :
  (infer_units name = [] \/
   exists pre post,
     name = pre ++ [lparen] ++ infer_units name ++ [rparen] ++ post /\
     ~ In lparen pre /\ ~ In rparen pre) /\
  ~ In rparen (infer_units name) /\
  y_label name <> [] /\
  (infer_units name = [] -> y_label name = s2u "Wert") /\
  (infer_units name <> [] -> y_label name = infer_units name).
Proof.
  destruct (infer_units_shape name) as [H|[pre [post [H1 [H2 [H3 H4]]]]]].
  - split; [left; exact H|]. unfold y_label. rewrite H.
    split; [intros []|]. split; [discriminate|].
    split; [reflexivity | congruence].
  - split; [right; exists pre, post; auto|].
    split; [exact H4|]. unfold y_label.
    destruct (infer_units name) as [|c r]; split; try discriminate;
      split; try reflexivity; congruence.
Qed.

(** ** Dropped files *)

Lemma lstrip_chars_head (chars s t : pystr) (c : char) :
  lstrip_chars chars s = c :: t -> existsb (N.eqb c) chars = false.
Proof.
  induction s as [|x s IH]; cbn [lstrip_chars]; [discriminate|].
  destruct (existsb (N.eqb x) chars) eqn:Hx; [exact IH|].
  intros H; inversion H; subst. exact Hx.
Qed.

Lemma lstrip_chars_in (chars s : pystr) (x : char) :
  In x (lstrip_chars chars s) -> In x s.
Proof.
  induction s as [|c s IH]; cbn [lstrip_chars]; [tauto|].
  destruct (existsb (N.eqb c) chars); [right; apply IH; assumption | tauto].
Qed.

Lemma strip_chars_first (chars s t : pystr) (c : char) :
  strip_chars chars s = c :: t -> existsb (N.eqb c) chars = false.
Proof.
  unfold strip_chars. intros H.
  set (l := lstrip_chars chars s) in *.
  assert (Hsuf : exists a, rev l = a ++ lstrip_chars chars (rev l)).
  { clear. induction (rev l) as [|x r [a IH]]; [exists []; reflexivity|].
    cbn [lstrip_chars]. destruct (existsb (N.eqb x) chars).
    - exists (x :: a). cbn. f_equal. exact IH.
    - exists []. reflexivity. }
  destruct Hsuf as [a Ha].
  assert (Hl : l = rev (lstrip_chars chars (rev l)) ++ rev a).
  { rewrite <- rev_app_distr, <- Ha, rev_involutive. reflexivity. }
  rewrite H in Hl. cbn [app] in Hl.
  exact (@lstrip_chars_head chars s _ _ Hl).
Qed.

Lemma strip_chars_last (chars s t : pystr) (c : char) :
  strip_chars chars s = t ++ [c] -> existsb (N.eqb c) chars = false.
Proof.
  unfold strip_chars. intros H.
  apply (f_equal (@rev char)) in H.
  rewrite rev_involutive, rev_app_distr in H. cbn [rev app] in H.
  exact (@lstrip_chars_head chars _ _ _ H).
Qed.

Lemma strip_chars_in (chars s : pystr) (x : char) :
  In x (strip_chars chars s) -> In x s.
Proof.
  unfold strip_chars. intros H.
  apply in_rev, lstrip_chars_in, in_rev, lstrip_chars_in in H. exact H.
Qed.

Lemma strip_in (s : pystr) (x : char) : In x (strip s) -> In x s.
Proof.
  intros H. destruct (strip_split s) as [a [b [Hs _]]].
  rewrite Hs. apply in_or_app. right. apply in_or_app. left. exact H.
Qed.

Lemma split_ws_tokens (s cur tok : pystr) :
  (forall x, In x cur -> isspace x = false) ->
  In tok (split_ws s cur) ->
  tok <> [] /\ forall x, In x tok -> isspace x = false.
Proof.
  revert cur. induction s as [|c s IH]; intros cur Hcur; cbn [split_ws].
  - destruct cur as [|d cur]; [intros []|].
    intros [<-|[]]. split.
    + intros H. apply (f_equal (@List.length char)) in H.
      rewrite length_rev in H. discriminate.
    + intros x Hx. apply Hcur. apply in_rev. exact Hx.
  - destruct (isspace c) eqn:Hc.
    + destruct cur as [|d cur]; [apply IH; intros x []|].
      intros [<-|H]; [|apply (IH []); [intros x [] | exact H]].
      split.
      * intros H. apply (f_equal (@List.length char)) in H.
        rewrite length_rev in H. discriminate.
      * intros x Hx. apply Hcur. apply in_rev. exact Hx.
    + apply IH. intros x [<-|Hx]; [exact Hc | apply Hcur; exact Hx].
Qed.

(** X14: every path [parse_dnd_list] returns is [Path] of a text got
    from one dropped entry by stripping blanks and then braces and double
    quotes; that text is never empty and neither begins nor ends with a
    brace or a double quote; paths come in the order of the entries, an
    entry that strips to nothing gives none, every other entry gives one.
    When Tcl's [splitlist] raises, the data is split on blanks, so no
    text handed to [Path] holds a blank. *)
Theorem dropped_paths_are_trimmed (splitlist : pystr -> option (list pystr))
  (PathOf : Type) (path_of : pystr -> PathOf) (data : pystr) :
  parse_dnd_list splitlist path_of data
    = map path_of
          (filter (fun t => negb (str_eqb t []))
                  (map (fun entry => strip_chars dnd_trim (strip entry))
                       (dnd_raw_paths splitlist data))) /\
  (forall t,
     In t (filter (fun t => negb (str_eqb t []))
                  (map (fun entry => strip_chars dnd_trim (strip entry))
                       (dnd_raw_paths splitlist data))) ->
     t <> [] /\
     (forall c r, t = c :: r -> existsb (N.eqb c) dnd_trim = false) /\
     (forall r c, t = r ++ [c] -> existsb (N.eqb c) dnd_trim = false) /\
     (splitlist data = None -> forall x, In x t -> isspace x = false)) /\
  List.length (parse_dnd_list splitlist path_of data)
    <= List.length (dnd_raw_paths splitlist data).
Proof.
  unfold parse_dnd_list.
  set (raw := dnd_raw_paths splitlist data).
  assert (Hmap : flat_map (dnd_entry path_of) raw
                 = map path_of
                     (filter (fun t => negb (str_eqb t []))
                        (map (fun entry => strip_chars dnd_trim (strip entry))
                             raw))).
  { induction raw as [|entry raw IH]; [reflexivity|].
    cbn [flat_map map filter]. rewrite IH. unfold dnd_entry.
    destruct (strip_chars dnd_trim (strip entry)); reflexivity. }
  split; [exact Hmap|]. split.
  - intros t Ht. apply filter_In in Ht. destruct Ht as [Hin Hne].
    apply negb_true_iff, str_eqb_neq in Hne.
    apply in_map_iff in Hin. destruct Hin as [entry [Heq He]].
    split; [exact Hne|]. split; [|split].
    + intros c r Hc. rewrite Hc in Heq.
      exact (@strip_chars_first _ _ _ _ Heq).
    + intros r c Hc. rewrite Hc in Heq.
      exact (@strip_chars_last _ _ _ _ Heq).
    + intros Hnone x Hx. subst t.
      apply strip_chars_in, strip_in in Hx.
      unfold raw, dnd_raw_paths in He. rewrite Hnone in He.
      unfold py_split in He.
      destruct (split_ws_tokens data [] entry (fun x H => match H with end) He)
        as [_ Hws].
      apply Hws. exact Hx.
  - rewrite Hmap, length_map.
    etransitivity; [apply filter_length_le|]. rewrite length_map. apply Nat.le_refl.
Qed.

(** ** The sample libraries on the further properties *)

Ltac sample_loaded p h out Hl :=
  destruct (@load_csv Sample.libs p h) as [?e|out] eqn:Hl;
  [vm_compute in Hl; discriminate|].

Lemma loaded_columns_typed_sample :
  @read_frame Sample.libs (inr Sample.scenario_a) 2 = inr Sample.scenario_a /\
  exists out,
    @load_csv Sample.libs (inr Sample.scenario_a) 2 = inr out /\
    (exists stamps, getitem out Datum = Some (Datetime (map Some stamps))) /\
    forall c s, In (c, s) (columns out) -> c <> Datum ->
      exists v, s = Numeric v /\ any_positive v = true.
Proof.
  assert (Hread : @read_frame Sample.libs (inr Sample.scenario_a) 2
                  = inr Sample.scenario_a) by reflexivity.
  split; [exact Hread|].
  sample_loaded (@inr pystr DataFrame Sample.scenario_a) 2%Z out Hl.
  exists out. split; [reflexivity|].
  destruct (@loaded_columns_typed Sample.libs (inr Sample.scenario_a) 2
              Sample.scenario_a out Hread Hl) as [H1 [H2 _]].
  split; [exact H1 | exact H2].
Defined.

Lemma loaded_rows_in_order_sample :
  @read_frame Sample.libs (inr Sample.annotated) 2 = inr Sample.annotated /\
  well_formed Sample.annotated = true /\
  exists out,
    @load_csv Sample.libs (inr Sample.annotated) 2 = inr out /\
    index out = [1; 2]%nat /\
    aligned out = true /\ StronglySorted lt (index out).
Proof.
  assert (Hread : @read_frame Sample.libs (inr Sample.annotated) 2
                  = inr Sample.annotated) by reflexivity.
  assert (Hwf : well_formed Sample.annotated = true) by (vm_compute; reflexivity).
  split; [exact Hread|]. split; [exact Hwf|].
  sample_loaded (@inr pystr DataFrame Sample.annotated) 2%Z out Hl.
  exists out. split; [reflexivity|].
  destruct (@loaded_rows_in_order Sample.libs (inr Sample.annotated) 2
              Sample.annotated out Hread Hwf Hl) as [H1 [H2 _]].
  split; [|split; [exact H1 | exact H2]].
  pose proof Hl as Hq. vm_compute in Hq. injection Hq as <-. reflexivity.
Defined.

Lemma figures_of_loaded_frame_sample :
  @read_frame Sample.libs (inr Sample.scenario_a) 2 = inr Sample.scenario_a /\
  distinct_labels Sample.scenario_a = true /\
  aligned Sample.scenario_a = true /\
  exists out,
    @load_csv Sample.libs (inr Sample.scenario_a) 2 = inr out /\
    exists stamps,
      forall fig, In fig (build_figures out) ->
        trace_x fig = Datetime (map Some stamps) /\
        exists v, trace_y fig = Numeric v /\
                  List.length v = List.length stamps /\
                  any_positive v = true.
Proof.
  assert (Hread : @read_frame Sample.libs (inr Sample.scenario_a) 2
                  = inr Sample.scenario_a) by reflexivity.
  assert (Hd : distinct_labels Sample.scenario_a = true)
    by (vm_compute; reflexivity).
  assert (Ha : aligned Sample.scenario_a = true) by (vm_compute; reflexivity).
  split; [exact Hread|]. split; [exact Hd|]. split; [exact Ha|].
  sample_loaded (@inr pystr DataFrame Sample.scenario_a) 2%Z out Hl.
  exists out. split; [reflexivity|].
  exact (proj2 (@figures_of_loaded_frame Sample.libs (inr Sample.scenario_a) 2
                  Sample.scenario_a out Hread Hd Ha Hl)).
Defined.

Lemma clean_object_columns_cellwise_sample :
  distinct (column_names Sample.scenario_b) = true /\
  _clean_object_columns Sample.scenario_b
    = mkFrame (index Sample.scenario_b)
        (map (fun c => (fst c, clean_cells (snd c)))
             (columns Sample.scenario_b)).
Proof.
  assert (Hd : distinct (column_names Sample.scenario_b) = true)
    by (vm_compute; reflexivity).
  split; [exact Hd|].
  exact (proj1 (clean_object_columns_cellwise Sample.scenario_b Hd)).
Defined.

Lemma annotation_rows_exactly_sample :
  well_formed Sample.annotated = true /\
  In 1%nat (index (normalize Sample.annotated)) /\
  (In 0%nat (index (normalize Sample.annotated)) <->
   (0 < List.length (index Sample.annotated))%nat /\
   forall c s text,
     In (c, s) (columns Sample.annotated) -> cell_text s 0 = Some text ->
     contains marker (clean_text text) = false).
Proof.
  assert (Hwf : well_formed Sample.annotated = true) by (vm_compute; reflexivity).
  split; [exact Hwf|]. split; [vm_compute; auto|].
  exact (annotation_rows_exactly Sample.annotated 0 Hwf).
Defined.

(** ** Dated rows, exactly *)

Lemma take_mask_nth (A : Type) (mask : list bool) (l : list A) (x : A) :
  In x (take_mask mask l) <->
  exists k, nth_error l k = Some x /\ nth k mask false = true.
Proof.
  revert l. induction mask as [|b mask IH]; intros l.
  - cbn. split; [intros [] | intros [k [_ H]]; destruct k; discriminate].
  - destruct l as [|y l].
    + cbn. split; [intros [] | intros [k [H _]]; destruct k; discriminate].
    + cbn [take_mask]. split.
      * intros H.
        assert (Hcase : (b = true /\ y = x) \/ In x (take_mask mask l)).
        { destruct b; [destruct H as [H|H]|]; auto. }
        destruct Hcase as [[-> ->]|Hin].
        -- exists 0. split; reflexivity.
        -- apply IH in Hin. destruct Hin as [k [H1 H2]].
           exists (S k). split; assumption.
      * intros [[|k] [H1 H2]]; cbn in H1, H2.
        -- subst b. inversion H1. left; reflexivity.
        -- assert (Hin : In x (take_mask mask l)) by (apply IH; eauto).
           destruct b; [right|]; exact Hin.
Qed.

Lemma sorted_nodup (l : list nat) : StronglySorted lt l -> NoDup l.
Proof.
  induction 1 as [|x l Hs IH Hall]; constructor; [|exact IH].
  intros Hin. rewrite Forall_forall in Hall. specialize (Hall x Hin). lia.
Qed.

Lemma normalize_sorted (raw : DataFrame) :
  range_indexed raw = true -> StronglySorted lt (index (normalize raw)).
Proof.
  intros Hr. apply range_seq in Hr. unfold normalize, drop_definition_rows.
  destruct (existsb _ _); cbn [frame_take index];
    rewrite (proj2 (clean_object_columns_names _)); cbn [index];
    [apply take_mask_sorted|]; rewrite Hr; apply seq_sorted.
Qed.

Section DatedRows.

Context {E : Externals}.

Lemma parsed_bit (s : Series) (k : nat) :
  k < series_len s ->
  nth k (map negb (isna (pd_to_datetime s))) false
    = match to_datetime_at s k with
      | Some _ => true
      | None => false
      end.
Proof.
  intros Hk. unfold pd_to_datetime. cbn [isna]. rewrite !map_map.
  assert (Hn : nth_error (seq 0 (series_len s)) k = Some k).
  { rewrite (nth_error_nth' _ 0) by (rewrite length_seq; exact Hk).
    rewrite seq_nth by exact Hk. reflexivity. }
  rewrite (nth_map_error _ _ _ false Hn).
  destruct (to_datetime_at s k); reflexivity.
Qed.

(** X15: date parsing keeps a row of the normalized frame exactly when
    [pd.to_datetime] gave its date cell a stamp; a row whose date did not
    parse is gone from the index, and no dated row is lost. *)
Theorem dated_rows_exactly (raw df : DataFrame) :
  well_formed raw = true -> prepare raw = inr df ->
  exists s,
    getitem (normalize raw) Datum = Some s /\
    forall k label,
      nth_error (index (normalize raw)) k = Some label ->
      (In label (index df) <-> exists t, to_datetime_at s k = Some t).
Proof.
  intros Hwf Hp. apply well_formed_spec in Hwf. destruct Hwf as [Hd [Hr Ha]].
  pose proof (normalize_aligned raw Hd Ha) as Hal.
  pose proof (sorted_nodup (normalize_sorted raw Hr)) as Hnd.
  unfold prepare, parse_dates in Hp.
  destruct (has_column (normalize raw) Datum) eqn:Hhas; cbn [negb] in Hp;
    [|discriminate].
  destruct (lookup_names (columns (normalize raw)) Datum) as [s Hs].
  { apply existsb_str_eqb. exact Hhas. }
  fold (getitem (normalize raw) Datum) in Hs. rewrite Hs in Hp.
  inversion Hp; subst df; clear Hp.
  exists s. split; [exact Hs|]. intros k label Hk.
  unfold dropna_datum. rewrite getitem_setitem, str_eqb_refl.
  cbn [frame_take index setitem].
  assert (Hlen : series_len s = List.length (index (normalize raw))).
  { rewrite aligned_spec in Hal. apply (Hal (Datum, s)).
    apply lookup_in. exact Hs. }
  assert (Hlt : k < series_len s).
  { rewrite Hlen. apply nth_error_Some. rewrite Hk. discriminate. }
  rewrite take_mask_nth. split.
  - intros [k' [Hk' Hbit]].
    assert (k' = k).
    { rewrite NoDup_nth_error in Hnd. apply Hnd.
      - apply nth_error_Some. rewrite Hk'. discriminate.
      - rewrite Hk, Hk'. reflexivity. }
    subst k'. rewrite parsed_bit in Hbit by exact Hlt.
    destruct (to_datetime_at s k) as [t|]; [eauto | discriminate].
  - intros [t Ht]. exists k. split; [exact Hk|].
    rewrite parsed_bit by exact Hlt. rewrite Ht. reflexivity.
Qed.

End DatedRows.

Lemma dated_rows_exactly_sample :
  well_formed Sample.undated = true /\
  exists df s,
    @prepare Sample.libs Sample.undated = inr df /\
    getitem (normalize Sample.undated) Datum = Some s /\
    (In 0%nat (index df) <-> exists t, @to_datetime_at Sample.libs s 0 = Some t).
Proof.
  assert (Hwf : well_formed Sample.undated = true) by (vm_compute; reflexivity).
  split; [exact Hwf|].
  sample_prepared Sample.undated df Hp.
  destruct (@dated_rows_exactly Sample.libs Sample.undated df Hwf Hp)
    as [s [Hs Hrows]].
  exists df, s. split; [reflexivity|]. split; [exact Hs|].
  apply (Hrows 0%nat 0%nat). reflexivity.
Defined.

(** * Annotation rows and column survival *)

Lemma take_mask_map (A B : Type) (f : A -> B) (mask : list bool) (l : list A) :
  take_mask mask (map f l) = map f (take_mask mask l).
Proof.
  revert l. induction mask as [|b mask IH]; intros [|x l]; try reflexivity.
  cbn [map take_mask]. rewrite IH. destruct b; reflexivity.
Qed.

Lemma map_nth_range (A : Type) (v : list A) (d : A) :
  map (fun i => nth i v d) (seq 0 (List.length v)) = v.
Proof.
  induction v as [|x v IH]; [reflexivity|].
  cbn [List.length seq map nth]. f_equal.
  rewrite <- seq_shift, map_map. exact IH.
Qed.

Lemma series_at_range (s : Series) : series_at (seq 0 (series_len s)) s = s.
Proof.
  destruct s; cbn [series_at series_len]; rewrite map_nth_range; reflexivity.
Qed.

Lemma series_take_at (mask : list bool) (labels : list nat) (s : Series) :
  series_take mask (series_at labels s) = series_at (take_mask mask labels) s.
Proof.
  destruct s; cbn [series_at series_take]; rewrite take_mask_map; reflexivity.
Qed.

Lemma clean_series_cells (s : Series) : clean_series s = clean_cells s.
Proof.
  destruct s as [v|v|v]; try reflexivity. cbn [clean_series clean_cells].
  rewrite clean_object_series_cells. reflexivity.
Qed.

(** After normalization every column holds the cleaned cells of the rows
    that are left, in the order of the index. *)
Lemma normalize_columns (raw : DataFrame) (c : pystr) (s : Series) :
  well_formed raw = true -> In (c, s) (columns raw) ->
  In (strip c, series_at (index (normalize raw)) (clean_cells s))
     (columns (normalize raw)).
Proof.
  intros Hwf Hc. apply well_formed_spec in Hwf. destruct Hwf as [Hd [Hr Ha]].
  rewrite normalize_frame by exact Hd.
  pose proof (range_seq _ _ Hr) as Hseq.
  assert (Hlen : series_len (clean_cells s) = List.length (index raw)).
  { rewrite <- clean_series_cells, series_len_clean.
    rewrite aligned_spec in Ha. exact (Ha (c, s) Hc). }
  assert (Hin : In (strip c, clean_cells s)
                   (map (fun c => (strip (fst c), clean_series (snd c)))
                        (columns raw))).
  { rewrite <- clean_series_cells.
    apply (in_map (fun c => (strip (fst c), clean_series (snd c))) _ (c, s)).
    exact Hc. }
  assert (Hat : forall mask,
            series_at (take_mask mask (index raw)) (clean_cells s)
              = series_take mask (clean_cells s)).
  { intros mask. rewrite <- (series_at_range (clean_cells s)) at 2.
    rewrite series_take_at, Hlen, <- Hseq. reflexivity. }
  assert (Hall : series_at (index raw) (clean_cells s) = clean_cells s).
  { rewrite <- (series_at_range (clean_cells s)) at 2.
    rewrite Hlen, <- Hseq. reflexivity. }
  unfold drop_definition_rows.
  destruct (existsb _ _); cbn [frame_take index columns].
  - rewrite Hat.
    apply (in_map (fun c => (fst c, series_take _ (snd c))) _
                  (strip c, clean_cells s)).
    exact Hin.
  - rewrite Hall. exact Hin.
Qed.

Section Survival.

Context {E : Externals}.

(** The same holds once the dates are parsed, for every column but the
    date column. *)
Lemma prepare_columns (raw df : DataFrame) (c : pystr) (s : Series) :
  well_formed raw = true -> prepare raw = inr df ->
  In (c, s) (columns raw) -> strip c <> Datum ->
  getitem df (strip c) = Some (series_at (index df) (clean_cells s)).
Proof.
  intros Hwf Hp Hc Hne.
  pose proof (normalize_columns raw c s Hwf Hc) as Hn.
  assert (Hdn : distinct (column_names (normalize raw)) = true).
  { apply well_formed_spec in Hwf. destruct Hwf as [Hd _].
    rewrite normalize_names by exact Hd. exact Hd. }
  apply (in_lookup _ _ _ Hdn) in Hn. fold (getitem (normalize raw) (strip c)) in Hn.
  assert (Hds : str_eqb Datum (strip c) = false).
  { apply str_eqb_neq. congruence. }
  unfold prepare, parse_dates in Hp.
  destruct (has_column (normalize raw) Datum) eqn:Hhas; cbn [negb] in Hp;
    [|discriminate].
  destruct (lookup_names (columns (normalize raw)) Datum) as [sd Hsd].
  { apply existsb_str_eqb. exact Hhas. }
  fold (getitem (normalize raw) Datum) in Hsd. rewrite Hsd in Hp.
  inversion Hp; subst df; clear Hp.
  unfold dropna_datum. rewrite getitem_setitem, str_eqb_refl.
  unfold getitem at 1. cbn [frame_take columns index].
  rewrite lookup_frame_take.
  fold (getitem (setitem (normalize raw) Datum (pd_to_datetime sd)) (strip c)).
  rewrite getitem_setitem, Hds, Hn. cbn [option_map setitem index].
  rewrite series_take_at. reflexivity.
Qed.

(** C8: a row with the marker "Definition:" in one of its cells as read
    is not among the rows of the prepared frame, and its cells are not in
    the columns either: each column holds the cleaned cells of the rows
    that were kept and of no other row.  Column survival is evaluated on
    exactly those cells, and the values returned are coerced from
    them. *)
Theorem annotation_rows_excluded (raw df : DataFrame) :
  well_formed raw = true -> prepare raw = inr df ->
  (forall i c s text,
     In i (index df) -> In (c, s) (columns raw) ->
     cell_text s i = Some text -> contains marker text = false) /\
  aligned df = true /\
  (forall c s,
     In (c, s) (columns raw) -> strip c <> Datum ->
     getitem df (strip c) = Some (series_at (index df) (clean_cells s))) /\
  (forall c s,
     In (c, s) (columns raw) -> strip c <> Datum ->
     (In (strip c) (chart_columns (process raw)) <->
      any_positive (_coerce_numeric (series_at (index df) (clean_cells s)))
        = true)) /\
  (forall out,
     process raw = inr out ->
     index out = index df /\
     forall c s sv,
       In (c, s) (columns raw) -> strip c <> Datum ->
       In (strip c, sv) (columns out) ->
       sv = Numeric (_coerce_numeric (series_at (index df) (clean_cells s)))).
Proof.
  intros Hwf Hp.
  assert (Hproc : process raw = select_numeric df).
  { unfold process. rewrite Hp. reflexivity. }
  pose proof (fun c s => @prepare_columns raw df c s Hwf Hp) as Hcols.
  split; [|split; [|split; [exact Hcols|split]]].
  - intros i c s text Hi Hc Ht.
    destruct (contains marker text) eqn:Hm; [exfalso | reflexivity].
    exact (@normalize_excludes raw i c s text Hwf Hc Ht Hm
             (@prepare_index _ raw df i Hp Hi)).
  - apply well_formed_spec in Hwf. destruct Hwf as [Hd [_ Ha]].
    exact (prepare_aligned raw Hd Ha Hp).
  - intros c s Hc Hne. rewrite Hproc, chart_columns_select, filter_In.
    unfold survives. rewrite (Hcols c s Hc Hne).
    assert (Hds : str_eqb (strip c) Datum = false)
      by (apply str_eqb_neq; exact Hne).
    rewrite Hds. cbn [negb andb]. split; [tauto|].
    intros Hpos. split; [|exact Hpos].
    apply in_map_iff. exists (strip c, series_at (index df) (clean_cells s)).
    split; [reflexivity|]. apply lookup_in. exact (Hcols c s Hc Hne).
  - intros out Hout. rewrite Hproc in Hout.
    destruct (select_numeric_output df Hout) as [Hidx [_ Hsel]].
    split; [exact Hidx|].
    intros c s sv Hc Hne Hin.
    destruct (Hsel _ _ Hin) as [[Heq _]|[_ [s0 [Hs0 ->]]]]; [contradiction|].
    rewrite (Hcols c s Hc Hne) in Hs0. inversion Hs0. reflexivity.
Qed.

End Survival.

Lemma annotation_rows_excluded_sample :
  well_formed Sample.annotated = true /\
  exists df,
    @prepare Sample.libs Sample.annotated = inr df /\
    index df = [1; 2]%nat /\
    (forall i c s text,
       In i (index df) -> In (c, s) (columns Sample.annotated) ->
       cell_text s i = Some text -> contains marker text = false) /\
    getitem df (s2u "Hinweis") = Some (Object [PdNA; PyStr (s2u "0,00")]) /\
    (In (s2u "Hinweis") (chart_columns (@process Sample.libs Sample.annotated)) <->
     @any_positive
       (@_coerce_numeric Sample.libs (Object [PdNA; PyStr (s2u "0,00")]))
       = true).
Proof.
  assert (Hwf : well_formed Sample.annotated = true) by (vm_compute; reflexivity).
  split; [exact Hwf|].
  sample_prepared Sample.annotated df Hp.
  destruct (@annotation_rows_excluded Sample.libs Sample.annotated df Hwf Hp)
    as [H1 [_ [H3 [H4 _]]]].
  assert (Hi : index df = [1; 2]%nat).
  { pose proof Hp as Hq. vm_compute in Hq. injection Hq as <-. reflexivity. }
  assert (Hin : In (s2u "Hinweis",
                    Object [PyStr (s2u "7,00"); PyNaN; PyStr (s2u "0,00")])
                   (columns Sample.annotated))
    by (right; right; left; reflexivity).
  assert (Hne : strip (s2u "Hinweis") <> Datum) by discriminate.
  specialize (H3 _ _ Hin Hne). specialize (H4 _ _ Hin Hne).
  rewrite Hi in H3, H4.
  exists df. split; [reflexivity|]. split; [exact Hi|].
  split; [exact H1|]. split; [exact H3 | exact H4].
Defined.

(** * Two runs on the same input *)

Section TwoRuns.

Context {E : Externals}.

Lemma write_dashboard_document (figures : list Figure) (title_ : pystr)
  (w : World) :
  fst (write_dashboard figures title_ w)
    = document_with_ids title_ figures (draws (List.length figures) w).
Proof.
  unfold write_dashboard, document_with_ids, cards_with_ids.
  pose proof (render_cards_cards figures 0 w) as Hc.
  destruct (render_cards figures 0 w) as [cards w']. cbn [fst] in *.
  rewrite Hc. reflexivity.
Qed.

Lemma generate_outcome (csv_path : Path) (output_path : option Path)
  (title_ : pystr) (header_row : Z) (w : World) :
  outcome (generate_dashboard csv_path output_path title_ header_row w)
    = match load_csv csv_path header_row with
      | inl e => inl e
      | inr df =>
          inr (output_path_of csv_path output_path,
               document_with_ids title_ (build_figures df)
                 (draws (List.length (build_figures df)) w))
      end.
Proof.
  unfold generate_dashboard.
  destruct (load_csv csv_path header_row) as [e|df]; [reflexivity|].
  pose proof (write_dashboard_document (build_figures df) title_ w) as Hd.
  destruct (write_dashboard (build_figures df) title_ w) as [doc w'].
  cbn [fst outcome] in *. rewrite Hd. reflexivity.
Qed.


End TwoRuns.


(** * The frame returned, with distinct labels *)

Section DistinctLabels.

Context {E : Externals}.

(** X2: for a file read with labels that are distinct once stripped,
    [load_csv] fails with the missing-column message exactly when none of
    the stripped labels is "Datum"; cleaning and annotation-row removal
    neither add nor remove a label. *)
Theorem missing_datum_error_iff (csv_path : Path) (header_row : Z)
  (raw : DataFrame) :
  read_frame csv_path header_row = inr raw ->
  distinct_labels raw = true ->
  (load_csv csv_path header_row = inl (RuntimeError msg_no_datum) <->
   ~ In Datum (map strip (column_names raw))) /\
  column_names (normalize raw) = map strip (column_names raw).
Proof.
  intros Hread Hd. split; [|apply normalize_names; exact Hd].
  unfold load_csv, process. rewrite Hread.
  destruct (prepare_cases raw) as [[Hn Hp]|[Hin [df Hp]]]; rewrite Hp.
  - tauto.
  - split; [|contradiction].
    intros H. apply select_numeric_error in H. inversion H.
Qed.

(** X4: for a file read with labels that are distinct once stripped, the
    frame returned has the date column first and after it the surviving
    columns in the order they stand in the file; there is at least one,
    each is a stripped label of the file, and the returned labels are
    again distinct. *)
Theorem loaded_columns_in_order (csv_path : Path) (header_row : Z)
  (raw df out : DataFrame) :
  read_frame csv_path header_row = inr raw ->
  distinct_labels raw = true ->
  prepare raw = inr df ->
  load_csv csv_path header_row = inr out ->
  column_names out = Datum :: filter (survives df) (column_names df) /\
  column_names df = map strip (column_names raw) /\
  filter (survives df) (column_names df) <> [] /\
  distinct (column_names out) = true.
Proof.
  intros Hread Hd Hp Hload.
  destruct (load_csv_prepared _ _ Hread Hload) as [df0 [Hp0 Hsel]].
  rewrite Hp in Hp0. inversion Hp0; subst df0; clear Hp0.
  destruct (prepare_datum raw Hp) as [Hhas _].
  destruct (select_numeric_columns df Hhas Hsel) as [Hnames _].
  split; [exact Hnames|]. split; [|split].
  - unfold prepare in Hp. destruct (parse_dates_facts _ Hp) as [_ [_ H3]].
    rewrite H3. apply normalize_names. exact Hd.
  - intros Hnil. apply select_numeric_fails in Hnil.
    rewrite Hnil in Hsel. discriminate.
  - rewrite Hnames. apply distinct_cons. split.
    + intros Hin. apply filter_In in Hin. destruct Hin as [_ Hs].
      apply survives_not_datum in Hs. rewrite str_eqb_refl in Hs. discriminate.
    + apply distinct_filter. exact (prepare_distinct raw Hd Hp).
Qed.

End DistinctLabels.

Lemma missing_datum_sample :
  @read_frame Sample.libs (inr frame_without_datum) 2 = inr frame_without_datum /\
  distinct_labels frame_without_datum = true /\
  @load_csv Sample.libs (inr frame_without_datum) 2
    = inl (RuntimeError msg_no_datum).
Proof.
  assert (Hread : @read_frame Sample.libs (inr frame_without_datum) 2
                  = inr frame_without_datum) by reflexivity.
  assert (Hd : distinct_labels frame_without_datum = true)
    by (vm_compute; reflexivity).
  split; [exact Hread|]. split; [exact Hd|].
  apply (proj1 (@missing_datum_error_iff Sample.libs (inr frame_without_datum) 2
                  frame_without_datum Hread Hd)).
  cbn. intros H. repeat (destruct H as [H|H]; [discriminate|]). exact H.
Defined.

Lemma loaded_columns_in_order_sample :
  @read_frame Sample.libs (inr Sample.annotated) 2 = inr Sample.annotated /\
  distinct_labels Sample.annotated = true /\
  exists df out,
    @prepare Sample.libs Sample.annotated = inr df /\
    @load_csv Sample.libs (inr Sample.annotated) 2 = inr out /\
    column_names out = [Datum; s2u "Leistung (kW)"] /\
    column_names out
      = Datum :: filter (@survives Sample.libs df) (column_names df) /\
    distinct (column_names out) = true.
Proof.
  assert (Hread : @read_frame Sample.libs (inr Sample.annotated) 2
                  = inr Sample.annotated) by reflexivity.
  assert (Hd : distinct_labels Sample.annotated = true)
    by (vm_compute; reflexivity).
  split; [exact Hread|]. split; [exact Hd|].
  sample_prepared Sample.annotated df Hp.
  sample_loaded (@inr pystr DataFrame Sample.annotated) 2%Z out Hl.
  exists df, out. split; [reflexivity|]. split; [reflexivity|].
  destruct (@loaded_columns_in_order Sample.libs (inr Sample.annotated) 2
              Sample.annotated df out Hread Hd Hp Hl) as [H1 [_ [_ H4]]].
  split; [|split; [exact H1 | exact H4]].
  pose proof Hl as Hq. vm_compute in Hq. injection Hq as <-. reflexivity.
Defined.
